(** * Personal-asst: plugin routing and conversation state

    A shallow embedding of [src/core/assistant.py], [src/core/conversation.py],
    [src/core/plugin_manager.py] and [src/core/plugin_base.py].

    Python objects are mutated in place, so every method is a state
    transformer on one [world] record holding what is reachable from a
    [PersonalAssistant]; an exception is a [Raise] outcome that carries the
    world as it was when the exception left the method. *)

From stdpp Require Import gmap strings list pretty sorting.

(** ** Values, exceptions, outcomes *)

(** The values a [Dict[str, Any]] holds in this program. *)
Inductive pyval :=
| PyNone
| PyBool (b : bool)
| PyInt (z : Z)
| PyStr (s : string).

(** Python truthiness of a value. *)
Definition truthy (v : pyval) : bool :=
  match v with
  | PyNone => false
  | PyBool b => b
  | PyInt z => negb (Z.eqb z 0)
  | PyStr s => negb (String.eqb s "")
  end.

Abbreviation context := (gmap string pyval).
Abbreviation plugin_config := (gmap string pyval).

(** [src/utils/exceptions.py], plus [Exception] for every other exception
    derived from [Exception], and the two exceptions a plugin or an import
    can raise that derive from [BaseException] only; the string is what
    [str(e)] gives. *)
Inductive exn :=
| AssistantError (msg : string)
| PluginError (msg : string)
| AIError (msg : string)
| Exception (msg : string)
| KeyboardInterrupt (msg : string)
| SystemExit (msg : string).

Definition str (e : exn) : string :=
  match e with
  | AssistantError m | PluginError m | AIError m | Exception m
  | KeyboardInterrupt m | SystemExit m => m
  end.

(** [isinstance(e, Exception)]: what an [except Exception] clause catches. *)
Definition is_Exception (e : exn) : bool :=
  match e with
  | AssistantError _ | PluginError _ | AIError _ | Exception _ => true
  | KeyboardInterrupt _ | SystemExit _ => false
  end.

Inductive outcome (A : Type) :=
| Ok (a : A)
| Raise (e : exn).
Arguments Ok {A} a.
Arguments Raise {A} e.

(** ** Methods as state transformers that may raise

    [W] is the type of the mutable world a method runs in. *)

Definition M (W A : Type) : Type := W -> outcome A * W.

Definition ret {W A} (a : A) : M W A := fun w => (Ok a, w).

Definition bind {W A B} (m : M W A) (k : A -> M W B) : M W B :=
  fun w => match m w with
           | (Ok a, w') => k a w'
           | (Raise e, w') => (Raise e, w')
           end.

Definition raise {W A} (e : exn) : M W A := fun w => (Raise e, w).

(** [try: body  except Exception as e: handler e]: an exception that is
    not an [Exception] passes through. *)
Definition try_except {W A} (body : M W A) (handler : exn -> M W A) : M W A :=
  fun w => match body w with
           | (Ok a, w') => (Ok a, w')
           | (Raise e, w') =>
               if is_Exception e then handler e w' else (Raise e, w')
           end.

Definition get {W A} (f : W -> A) : M W A := fun w => (Ok (f w), w).
Definition modify {W} (f : W -> W) : M W unit := fun w => (Ok tt, f w).

Notation "x <- m ;; k" := (bind m (fun x => k))
  (at level 100, m at next level, right associativity).
Notation "m ;;; k" := (bind m (fun _ => k))
  (at level 100, right associativity).

(** ** Conversation exchanges *)

Record Exchange := {
  timestamp : string;
  user : string;
  assistant : string
}.

(** [l[-n:]] on a Python list. *)
Definition last_n {A} (n : nat) (l : list A) : list A :=
  drop (length l - n) l.

(** ** Plugins *)

Section Assistant.

(** The attributes a plugin subclass adds to an instance. *)
Context {S : Type}.

(** The attributes of a plugin object: [BasePlugin.__init__] sets
    [enabled]; [attrs] are the subclass's own. *)
Record instance := {
  enabled : bool;
  attrs : S
}.

(** A plugin class: its constructor and the two abstract methods of
    [BasePlugin] the orchestrator calls. A method reads [self], may raise,
    and [execute] may leave [self] changed (also when it raises). *)
Record plugin_class := {
  init : plugin_config -> outcome instance;
  can_handle : instance -> string -> outcome bool;
  execute : instance -> string -> context -> outcome string * instance
}.

Record BasePlugin := {
  cls : plugin_class;
  self : instance
}.

(** [BasePlugin.__init__]: [self.enabled = config.get("enabled", True)]. *)
Definition base_init (config : plugin_config) (a : S) : instance :=
  {| enabled := match config !! "enabled" with
                | Some v => truthy v
                | None => true
                end;
     attrs := a |}.

(** [BasePlugin.is_enabled]. *)
Definition is_enabled (p : BasePlugin) : bool := enabled (self p).

(** ** Insertion-ordered dictionaries

    [PluginManager.plugins] is a Python dict: iteration follows insertion
    order, and assigning to a key already present replaces the value in
    place. *)

Fixpoint dict_get (d : list (string * BasePlugin)) (k : string) : option BasePlugin :=
  match d with
  | [] => None
  | (k', v) :: d' => if decide (k' = k) then Some v else dict_get d' k
  end.

Fixpoint dict_set (d : list (string * BasePlugin)) (k : string) (v : BasePlugin)
  : list (string * BasePlugin) :=
  match d with
  | [] => [(k, v)]
  | (k', v') :: d' =>
      if decide (k' = k) then (k, v) :: d' else (k', v') :: dict_set d' k v
  end.

Definition keys (d : list (string * BasePlugin)) : list string := d.*1.

(** ** The plugin directory *)

(** A class object found in an imported module. *)
Inductive class_obj :=
| BasePluginItself
| PluginSubclass (defined_in : string) (c : plugin_class)
| OtherClass.

(** A file [src/plugins/<stem>.py]: [members] is what importing it and
    listing its classes with [inspect.getmembers] gives. *)
Record plugin_file := {
  stem : string;
  members : outcome (list (string * class_obj))
}.

(** ** The world *)

(** Instrumentation: the calls the orchestrator makes to its collaborators. *)
Inductive event :=
| CanHandle (name : string) (user_input : string)
| Execute (name : string) (user_input : string) (ctx : context)
| GetResponse (user_input : string) (ctx : context).

Record world := {
  (* the environment *)
  plugin_directory : option (list plugin_file); (* None: does not exist *)
  isoformat : nat -> string;   (* datetime.now().isoformat() at its n-th call *)
  clock : nat;                 (* calls of datetime.now() so far *)
  calls : list event;
  (* the PersonalAssistant *)
  config_plugins : gmap string plugin_config;  (* self.config.plugins *)
  plugins : list (string * BasePlugin);        (* self.plugin_manager.plugins *)
  conversation_history : list Exchange;        (* self.conversation_manager.* *)
  _initialized : bool
}.

Definition set_plugins (f : list (string * BasePlugin) -> list (string * BasePlugin))
    (w : world) : world :=
  {| plugin_directory := plugin_directory w; isoformat := isoformat w;
     clock := clock w; calls := calls w; config_plugins := config_plugins w;
     plugins := f (plugins w);
     conversation_history := conversation_history w;
     _initialized := _initialized w |}.

Definition set_history (f : list Exchange -> list Exchange) (w : world) : world :=
  {| plugin_directory := plugin_directory w; isoformat := isoformat w;
     clock := clock w; calls := calls w; config_plugins := config_plugins w;
     plugins := plugins w;
     conversation_history := f (conversation_history w);
     _initialized := _initialized w |}.

Definition set_initialized (b : bool) (w : world) : world :=
  {| plugin_directory := plugin_directory w; isoformat := isoformat w;
     clock := clock w; calls := calls w; config_plugins := config_plugins w;
     plugins := plugins w;
     conversation_history := conversation_history w;
     _initialized := b |}.

Definition tick (w : world) : world :=
  {| plugin_directory := plugin_directory w; isoformat := isoformat w;
     clock := Datatypes.S (clock w); calls := calls w;
     config_plugins := config_plugins w; plugins := plugins w;
     conversation_history := conversation_history w;
     _initialized := _initialized w |}.

Definition record_call (e : event) (w : world) : world :=
  {| plugin_directory := plugin_directory w; isoformat := isoformat w;
     clock := clock w; calls := calls w ++ [e];
     config_plugins := config_plugins w; plugins := plugins w;
     conversation_history := conversation_history w;
     _initialized := _initialized w |}.

(** [datetime.now().isoformat()]. *)
Definition now_isoformat : M world string :=
  fun w => (Ok (isoformat w (clock w)), tick w).

(** ** [ConversationManager] *)

(** [ConversationManager.initialize]: the body of its [try] cannot raise. *)
Definition initialize : M world unit :=
  try_except (modify (set_initialized true))
             (fun e => raise (AIError ("AI initialization failed: " +:+ str e))).

(** [ConversationManager.add_exchange]. *)
Definition add_exchange (user_input assistant_response : string) : M world unit :=
  ts <- now_isoformat ;;
  let exchange := {| timestamp := ts; user := user_input;
                     assistant := assistant_response |} in
  modify (set_history (fun h => h ++ [exchange])) ;;;
  n <- get (fun w => length (conversation_history w)) ;;
  if 50 <? n then modify (set_history (last_n 50)) else ret tt.

(** [ConversationManager.get_response]. *)
Definition get_response (user_input : string) (ctx : context) : M world string :=
  ready <- get _initialized ;;
  if negb ready then
    ret "I'm not properly initialized yet. Please check the configuration."
  else
    try_except
      (let response := "I understand you said: '" +:+ user_input +:+
                       "'. I'm still learning how to help you better!" in
       add_exchange user_input response ;;;
       ret response)
      (fun e => ret ("I encountered an error: " +:+ str e)).

(** [ConversationManager.reset]. *)
Definition reset : M world unit := modify (set_history (fun _ => [])).

(** [ConversationManager.is_active]. *)
Definition is_active (w : world) : bool := 0 <? length (conversation_history w).

(** [ConversationManager.get_last_interaction_time]. *)
Definition get_last_interaction_time (w : world) : option string :=
  match conversation_history w with
  | [] => None
  | _ :: _ => timestamp <$> last (conversation_history w)
  end.

(** ** [PluginManager] *)

(** The loop over [inspect.getmembers(module, inspect.isclass)] in
    [_load_plugin_from_file]. *)
Fixpoint load_members (file_stem module_name : string)
    (ms : list (string * class_obj)) : M world unit :=
  match ms with
  | [] => ret tt
  | (name, obj) :: rest =>
      match obj with
      | PluginSubclass defined_in c =>
          if String.eqb defined_in module_name then
            cfgs <- get config_plugins ;;
            let plugin_config := default ∅ (cfgs !! file_stem) in
            plugin_instance <- (fun w => (init c plugin_config, w)) ;;
            modify (set_plugins (fun d =>
              dict_set d file_stem {| cls := c; self := plugin_instance |})) ;;;
            load_members file_stem module_name rest
          else load_members file_stem module_name rest
      | BasePluginItself | OtherClass =>
          load_members file_stem module_name rest
      end
  end.

(** [PluginManager._load_plugin_from_file]. *)
Definition _load_plugin_from_file (f : plugin_file) : M world unit :=
  let module_name := "src.plugins." +:+ stem f in
  try_except
    (ms <- (fun w => (members f, w)) ;;
     load_members (stem f) module_name ms)
    (fun e => raise (PluginError ("Failed to load plugin from src/plugins/" +:+
                                  stem f +:+ ".py: " +:+ str e))).

(** The loop over [plugin_directory.glob("*.py")] in [load_plugins]. *)
Fixpoint load_files (fs : list plugin_file) : M world unit :=
  match fs with
  | [] => ret tt
  | f :: rest =>
      if String.prefix "__" (stem f +:+ ".py") then load_files rest
      else
        try_except (_load_plugin_from_file f) (fun e => ret tt) ;;;
        load_files rest
  end.

(** [PluginManager.load_plugins]. *)
Definition load_plugins : M world unit :=
  dir <- get plugin_directory ;;
  match dir with
  | None => ret tt
  | Some fs => load_files fs
  end.

(** [PluginManager.get_plugin]. *)
Definition get_plugin (name : string) : M world BasePlugin :=
  d <- get plugins ;;
  match dict_get d name with
  | None => raise (PluginError ("Plugin '" +:+ name +:+ "' not found"))
  | Some p => ret p
  end.

(** [PluginManager.list_plugins]. *)
Definition list_plugins (w : world) : list string := keys (plugins w).

(** ** [PersonalAssistant] *)

(** [PersonalAssistant._initialize]. *)
Definition _initialize : M world unit :=
  try_except
    (load_plugins ;;; initialize)
    (fun e => raise (AssistantError ("Initialization failed: " +:+ str e))).

(** [PersonalAssistant.__init__] in an environment with the given plugin
    directory and clock: a fresh [PluginManager] and [ConversationManager],
    then [_initialize]. *)
Definition PersonalAssistant (dir : option (list plugin_file))
    (iso : nat -> string) (t : nat) (cfg : gmap string plugin_config)
  : outcome unit * world :=
  _initialize {| plugin_directory := dir; isoformat := iso; clock := t;
                 calls := []; config_plugins := cfg; plugins := [];
                 conversation_history := []; _initialized := false |}.

(** The dict display [{"timestamp": ts, "user_input": user_input,
    **(context or {})}]: entries are written left to right, so an unpacked
    entry replaces an earlier one under the same key. *)
Definition enhanced_context (ts user_input : string) (ctx : option context)
  : context :=
  default ∅ ctx ∪ <["user_input" := PyStr user_input]>
                     (<["timestamp" := PyStr ts]> ∅).

Definition call_can_handle (name : string) (plugin : BasePlugin)
    (user_input : string) : M world bool :=
  fun w => (can_handle (cls plugin) (self plugin) user_input,
            record_call (CanHandle name user_input) w).

(** [execute] works on the plugin object itself: the registry entry sees
    what it did to [self]. *)
Definition call_execute (name : string) (plugin : BasePlugin)
    (user_input : string) (ctx : context) : M world string :=
  fun w =>
    let '(r, self') := execute (cls plugin) (self plugin) user_input ctx in
    (r, set_plugins (fun d => dict_set d name {| cls := cls plugin; self := self' |})
          (record_call (Execute name user_input ctx) w)).

Definition call_get_response (user_input : string) (ctx : context)
  : M world string :=
  modify (record_call (GetResponse user_input ctx)) ;;;
  get_response user_input ctx.

(** The [for plugin in self.plugin_manager.plugins.values()] loop of
    [process_input]; [otherwise] is the code after the loop. *)
Fixpoint for_plugins (entries : list (string * BasePlugin))
    (user_input : string) (ctx : context) (otherwise : M world string)
  : M world string :=
  match entries with
  | [] => otherwise
  | (name, plugin) :: rest =>
      claims <- call_can_handle name plugin user_input ;;
      if (claims : bool) then
        response <- call_execute name plugin user_input ctx ;;
        add_exchange user_input response ;;;
        ret response
      else for_plugins rest user_input ctx otherwise
  end.

(** The [try] block of [process_input]. *)
Definition process_input_body (user_input : string) (ctx : option context)
  : M world string :=
  ts <- now_isoformat ;;
  let enhanced := enhanced_context ts user_input ctx in
  entries <- get plugins ;;
  for_plugins entries user_input enhanced
    (call_get_response user_input enhanced).

(** [PersonalAssistant.process_input]. *)
Definition process_input (user_input : string) (ctx : option context)
  : M world string :=
  try_except (process_input_body user_input ctx)
    (fun e => ret ("I'm sorry, I encountered an error: " +:+ str e)).

(** [PersonalAssistant.reset_conversation]. *)
Definition reset_conversation : M world unit := reset.

(** [PersonalAssistant.get_status], without the rendering. *)
Record status := {
  plugins_loaded : nat;
  conversation_active : bool;
  last_interaction : option string;
  capabilities : list string
}.

Definition get_status (w : world) : status :=
  {| plugins_loaded := length (plugins w);
     conversation_active := is_active w;
     last_interaction := get_last_interaction_time w;
     capabilities := keys (plugins w) |}.

End Assistant.

Arguments instance S : clear implicits.
Arguments plugin_class S : clear implicits.
Arguments BasePlugin S : clear implicits.
Arguments class_obj S : clear implicits.
Arguments plugin_file S : clear implicits.
Arguments world S : clear implicits.

(** ** [TaskPlugin] ([src/plugins/task_plugin.py])

    The plugin's methods as transformers of [self.tasks]. What they call
    from Python's library is a parameter: the theorems hold for whatever
    [str.lower], [str.strip], [re.search] and [int] compute. *)

Module TaskPlugin.

(** A task dict; [completed_at] is the key that [_complete_task] adds. *)
Record Task := {
  id : nat;
  description : string;
  created : string;
  completed : bool;
  completed_at : option string
}.

#[global] Instance Task_eq_dec : EqDecision Task.
Proof. solve_decision. Defined.

Record pylib := {
  lower : string -> string;                  (* str.lower *)
  strip : string -> string;                  (* str.strip *)
  (* group(1) of re.search(pattern, s, re.IGNORECASE), when it matches *)
  search_add_task : string -> option string;       (* r'add task (.+)' *)
  search_complete_task : string -> option string;  (* r'complete task (\d+)' *)
  search_remove_task : string -> option string;    (* r'remove task (\d+)' *)
  int : string -> outcome nat                (* int(s): may raise ValueError *)
}.

(** The newline character as a string. *)
Definition nl : string := String (Ascii.ascii_of_nat 10) EmptyString.

(** [x in s] on strings. *)
Definition contains (x s : string) : bool :=
  match String.index 0 x s with
  | Some _ => true
  | None => false
  end.

(** [list.remove(x)]: drops the first element equal to [x]. *)
Fixpoint list_remove (x : Task) (l : list Task) : list Task :=
  match l with
  | [] => []
  | y :: l' => if decide (y = x) then l' else y :: list_remove x l'
  end.

(** An assignment to keys of the dict that [_find_task] returned: it is
    the first task of the list with that id. *)
Fixpoint update_found (task_id : nat) (f : Task -> Task) (l : list Task)
  : list Task :=
  match l with
  | [] => []
  | t :: l' => if decide (id t = task_id) then f t :: l'
               else t :: update_found task_id f l'
  end.

(** [task["completed"] = True; task["completed_at"] = now]. *)
Definition mark_completed (now : string) (t : Task) : Task :=
  {| id := id t; description := description t; created := created t;
     completed := true; completed_at := Some now |}.

Section Methods.
Variable py : pylib.

Definition get_commands : list string :=
  [ "add task [description]"; "list tasks"; "complete task [id]";
    "remove task [id]" ].

(** [TaskPlugin.can_handle]. *)
Definition can_handle (user_input : string) : bool :=
  existsb (fun keyword => contains keyword (lower py user_input))
          ["task"; "todo"; "to-do"; "remind"; "remember"].

(** [TaskPlugin._find_task]. *)
Fixpoint _find_task (task_id : nat) (tasks : list Task) : option Task :=
  match tasks with
  | [] => None
  | task :: rest => if decide (id task = task_id) then Some task
                    else _find_task task_id rest
  end.

(** [TaskPlugin._add_task]; [now] is what [datetime.now().isoformat()]
    returns when the task dict is built. *)
Definition _add_task (now user_input : string) : M (list Task) string :=
  match search_add_task py user_input with
  | None =>
      ret "Please provide a task description. Example: 'add task buy groceries'"
  | Some group1 =>
      let description := strip py group1 in
      tasks <- get (fun tasks => tasks) ;;
      let task := {| id := length tasks + 1; description := description;
                     created := now; completed := false;
                     completed_at := None |} in
      modify (fun tasks => tasks ++ [task]) ;;;
      ret ("✅ Added task: " +:+ description)
  end.

Definition task_line (mark : string) (task : Task) : string :=
  mark +:+ pretty (id task) +:+ ". " +:+ description task +:+ nl.

(** The [for] loops of [_list_tasks]. *)
Fixpoint task_lines (mark : string) (tasks : list Task) : string :=
  match tasks with
  | [] => ""
  | task :: rest => task_line mark task +:+ task_lines mark rest
  end.

(** [TaskPlugin._list_tasks]. *)
Definition _list_tasks : M (list Task) string :=
  tasks <- get (fun tasks => tasks) ;;
  match tasks with
  | [] => ret "📝 No tasks found. Add a task with 'add task [description]'"
  | _ :: _ =>
      let active_tasks := filter (fun t => completed t = false) tasks in
      let completed_tasks := filter (fun t => completed t = true) tasks in
      let response := "📝 **Your Tasks:**" +:+ nl +:+ nl in
      let response :=
        match active_tasks with
        | [] => response
        | _ :: _ => response +:+ ("**Active Tasks:**" +:+ nl) +:+
                    task_lines "  " active_tasks +:+ nl
        end in
      let response :=
        match completed_tasks with
        | [] => response
        | _ :: _ => response +:+ ("**Completed Tasks:**" +:+ nl) +:+
                    task_lines "  ✓ " completed_tasks
        end in
      ret response
  end.

(** [TaskPlugin._complete_task]; [now] as in [_add_task]. *)
Definition _complete_task (now user_input : string) : M (list Task) string :=
  match search_complete_task py user_input with
  | None => ret "Please specify a task ID. Example: 'complete task 1'"
  | Some group1 =>
      task_id <- (fun tasks => (int py group1, tasks)) ;;
      tasks <- get (fun tasks => tasks) ;;
      match _find_task task_id tasks with
      | None => ret ("❌ Task " +:+ pretty task_id +:+ " not found")
      | Some task =>
          if completed task then
            ret ("✅ Task " +:+ pretty task_id +:+ " is already completed")
          else
            modify (update_found task_id (mark_completed now)) ;;;
            ret ("✅ Completed task: " +:+ description task)
      end
  end.

(** [TaskPlugin._remove_task]. *)
Definition _remove_task (user_input : string) : M (list Task) string :=
  match search_remove_task py user_input with
  | None => ret "Please specify a task ID. Example: 'remove task 1'"
  | Some group1 =>
      task_id <- (fun tasks => (int py group1, tasks)) ;;
      tasks <- get (fun tasks => tasks) ;;
      match _find_task task_id tasks with
      | None => ret ("❌ Task " +:+ pretty task_id +:+ " not found")
      | Some task =>
          modify (list_remove task) ;;;
          ret ("🗑️ Removed task: " +:+ description task)
      end
  end.

(** [TaskPlugin._general_task_help]. *)
Definition _general_task_help : string :=
  "I can help you manage tasks! Try:" +:+ nl +:+
  "• 'add task [description]' - Add a new task" +:+ nl +:+
  "• 'list tasks' - Show all tasks" +:+ nl +:+
  "• 'complete task [id]' - Mark task as done" +:+ nl +:+
  "• 'remove task [id]' - Delete a task".

(** [TaskPlugin.execute]; the context is not read. *)
Definition execute (now user_input : string) (ctx : context)
  : M (list Task) string :=
  let input_lower := lower py user_input in
  if contains "add" input_lower && contains "task" input_lower then
    _add_task now user_input
  else if contains "list" input_lower && contains "task" input_lower then
    _list_tasks
  else if contains "complete" input_lower && contains "task" input_lower then
    _complete_task now user_input
  else if contains "remove" input_lower && contains "task" input_lower then
    _remove_task user_input
  else ret _general_task_help.

End Methods.

(** [x] is a piece of [s]. *)
Definition occurs_in (x s : string) : Prop :=
  exists before after, s = before +:+ x +:+ after.

(** The ids are the positions, counted from 1: what a list built by
    [_add_task] alone looks like. *)
Definition sequential (tasks : list Task) : Prop :=
  id <$> tasks = seq 1 (length tasks).

End TaskPlugin.

(** ** Example plugins and worlds

    Small plugin classes a plugin file could define; their [attrs] count the
    calls of [execute]. *)

Definition contains (keyword s : string) : bool :=
  match String.index 0 keyword s with
  | Some _ => true
  | None => false
  end.

Definition executed_once (self : instance nat) : instance nat :=
  {| enabled := enabled self; attrs := Datatypes.S (attrs self) |}.

(** Claims the inputs that contain [keyword]; answers [reply] followed by
    the input. *)
Definition keyword_class (keyword reply : string) : plugin_class nat :=
  {| init := fun config => Ok (base_init config 0);
     can_handle := fun _ user_input => Ok (contains keyword user_input);
     execute := fun self user_input _ =>
                  (Ok (reply +:+ user_input), executed_once self) |}.


Definition new_plugin (c : plugin_class nat) (is_on : bool) : BasePlugin nat :=
  {| cls := c; self := {| enabled := is_on; attrs := 0 |} |}.

Definition example_clock (n : nat) : string := "T+" +:+ pretty n.

Definition example_world (registry : list (string * BasePlugin nat)) : world nat :=
  {| plugin_directory := None; isoformat := example_clock; clock := 0;
     calls := []; config_plugins := ∅; plugins := registry;
     conversation_history := []; _initialized := true |}.

(** Plugins "reminders" and "tasks" both claim an input containing
    "remind me"; "reminders" was registered first. *)
Definition two_claimants (first_on : bool) : list (string * BasePlugin nat) :=
  [ ("weather", new_plugin (keyword_class "weather" "W: ") true);
    ("reminders", new_plugin (keyword_class "remind" "A: ") first_on);
    ("tasks", new_plugin (keyword_class "remind me" "B: ") true);
    ("notes", new_plugin (keyword_class "remind" "C: ") true) ].

(** A plugin file whose module defines two plugin classes. *)
Definition helpers_py : plugin_file nat :=
  {| stem := "helpers";
     members := Ok [ ("BasePlugin", BasePluginItself);
                     ("Path", OtherClass);
                     ("AlphaPlugin",
                      PluginSubclass "src.plugins.helpers" (keyword_class "alpha" "alpha: "));
                     ("BetaPlugin",
                      PluginSubclass "src.plugins.helpers" (keyword_class "beta" "beta: ")) ] |}.

(** Only a disabled plugin claims an input containing "remind". *)
Definition one_disabled_claimant : list (string * BasePlugin nat) :=
  [ ("weather", new_plugin (keyword_class "weather" "W: ") true);
    ("reminders", new_plugin (keyword_class "remind" "A: ") false) ].



(** A [ConversationManager] on which [initialize] was never called. *)
Definition uninitialized_world : world nat :=
  {| plugin_directory := None; isoformat := example_clock; clock := 0;
     calls := []; config_plugins := ∅; plugins := two_claimants true;
     conversation_history := []; _initialized := false |}.

(** A world before [load_plugins], with [helpers_py] in the directory. *)
Definition unloaded_world : world nat :=
  {| plugin_directory := Some [helpers_py]; isoformat := example_clock;
     clock := 0; calls := []; config_plugins := ∅; plugins := [];
     conversation_history := []; _initialized := false |}.

(** A caller's context that uses the two keys of the orchestrator. *)
Definition spoofed_context : context :=
  <["timestamp" := PyStr "1999-12-31T23:59:59"]>
    (<["user_input" := PyStr "something else"]> ∅).

(** Sixty requests; every other one is claimed by a plugin. *)
Definition sixty_requests : list (string * option context) :=
  (fun n => (if Nat.even n then "remind me of item " +:+ pretty n
             else "hello " +:+ pretty n, None)) <$> seq 0 60.



(** A module that only imports classes. *)
Definition shared_py : plugin_file nat :=
  {| stem := "shared";
     members := Ok [ ("BasePlugin", BasePluginItself);
                     ("Path", OtherClass);
                     ("AlphaPlugin",
                      PluginSubclass "src.plugins.helpers" (keyword_class "alpha" "alpha: ")) ] |}.

(** ASCII stand-ins for the library functions [TaskPlugin] calls, to run
    the examples: on ASCII strings they compute what Python's do ([int]
    without its limit on the number of digits). *)
Module AsciiPy.

Definition lower_char (c : Ascii.ascii) : Ascii.ascii :=
  let n := Ascii.nat_of_ascii c in
  if (65 <=? n) && (n <=? 90) then Ascii.ascii_of_nat (n + 32) else c.

Fixpoint lower (s : string) : string :=
  match s with
  | EmptyString => EmptyString
  | String c s' => String (lower_char c) (lower s')
  end.

Definition is_space (c : Ascii.ascii) : bool :=
  let n := Ascii.nat_of_ascii c in
  ((9 <=? n) && (n <=? 13)) || ((28 <=? n) && (n <=? 32)).

Definition is_digit (c : Ascii.ascii) : bool :=
  let n := Ascii.nat_of_ascii c in (48 <=? n) && (n <=? 57).

Fixpoint lstrip (s : string) : string :=
  match s with
  | EmptyString => EmptyString
  | String c s' => if is_space c then lstrip s' else s
  end.

Definition reverse (s : string) : string :=
  String.string_of_list_ascii (rev (String.list_ascii_of_string s)).

Definition strip (s : string) : string :=
  reverse (lstrip (reverse (lstrip s))).

Fixpoint take_while (P : Ascii.ascii -> bool) (s : string) : string :=
  match s with
  | EmptyString => EmptyString
  | String c s' => if P c then String c (take_while P s') else EmptyString
  end.

Fixpoint match_prefix (pattern s : string) : option string :=
  match pattern, s with
  | EmptyString, _ => Some s
  | String p pattern', String c s' =>
      if Ascii.eqb (lower_char p) (lower_char c) then match_prefix pattern' s'
      else None
  | String _ _, EmptyString => None
  end.

Definition non_empty (s : string) : option string :=
  match s with
  | EmptyString => None
  | String _ _ => Some s
  end.

(** [re.search(pattern + group, s, re.IGNORECASE).group(1)], where [group]
    is [(.+)] or [(\d+)], given as the characters it takes. *)
Fixpoint search (pattern : string) (group : Ascii.ascii -> bool) (s : string)
  : option string :=
  match match_prefix pattern s ≫= (fun rest => non_empty (take_while group rest)) with
  | Some g => Some g
  | None => match s with
            | EmptyString => None
            | String _ s' => search pattern group s'
            end
  end.

Definition not_newline (c : Ascii.ascii) : bool :=
  negb (Ascii.eqb c (Ascii.ascii_of_nat 10)).

Fixpoint digits_value (acc : nat) (s : string) : nat :=
  match s with
  | EmptyString => acc
  | String c s' => digits_value (10 * acc + (Ascii.nat_of_ascii c - 48)) s'
  end.

Definition py : TaskPlugin.pylib :=
  {| TaskPlugin.lower := lower;
     TaskPlugin.strip := strip;
     TaskPlugin.search_add_task := search "add task " not_newline;
     TaskPlugin.search_complete_task := search "complete task " is_digit;
     TaskPlugin.search_remove_task := search "remove task " is_digit;
     TaskPlugin.int := fun s => Ok (digits_value 0 s) |}.

(** The task list after running the commands one after the other, all at
    the same time of day. *)
Definition run (commands : list string) (tasks : list TaskPlugin.Task)
  : list TaskPlugin.Task :=
  foldl (fun tasks c => (TaskPlugin.execute py "2024-05-01T09:00:00" c ∅ tasks).2)
        tasks commands.

End AsciiPy.

(** [process_input] called on each request in turn; the responses and the
    final world. *)
Fixpoint process_all {S} (requests : list (string * option context))
    (w : world S) : list (outcome string) * world S :=
  match requests with
  | [] => ([], w)
  | (user_input, ctx) :: rest =>
      let '(r, w1) := process_input user_input ctx w in
      let '(rs, w2) := process_all rest w1 in
      (r :: rs, w2)
  end.

(** No call in the sequence ends in the [except] branch of
    [process_input]. *)
Fixpoint all_succeed {S} (requests : list (string * option context))
    (w : world S) : bool :=
  match requests with
  | [] => true
  | (user_input, ctx) :: rest =>
      match process_input_body user_input ctx w with
      | (Ok _, w1) => all_succeed rest w1
      | (Raise _, _) => false
      end
  end.

(** The exchange [add_exchange] builds in world [w]. *)
Definition exchange_at {S} (w : world S) (user_input assistant_response : string)
  : Exchange :=
  {| timestamp := isoformat w (clock w); user := user_input;
     assistant := assistant_response |}.

(** [can_handle] returns false for this registry entry. *)
Definition declines {S} (user_input : string) (entry : string * BasePlugin S) : Prop :=
  can_handle (cls entry.2) (self entry.2) user_input = Ok false.

(** [can_handle] returns true for this registry entry. *)
Definition claims {S} (user_input : string) (entry : string * BasePlugin S) : Prop :=
  can_handle (cls entry.2) (self entry.2) user_input = Ok true.

(** The calls logged while the routing loop passes over [entries]. *)
Definition scan_log {S} (user_input : string) (entries : list (string * BasePlugin S))
  : list event :=
  (fun entry => CanHandle entry.1 user_input) <$> entries.

Definition record_calls {S} (es : list event) (w : world S) : world S :=
  {| plugin_directory := plugin_directory w; isoformat := isoformat w;
     clock := clock w; calls := calls w ++ es;
     config_plugins := config_plugins w; plugins := plugins w;
     conversation_history := conversation_history w;
     _initialized := _initialized w |}.

(** The call [e] was made for [user_input], and with context [ctx] if it
    takes one. *)
Definition carries (user_input : string) (ctx : context) (e : event) : Prop :=
  match e with
  | CanHandle _ u => u = user_input
  | Execute _ u c => u = user_input /\ c = ctx
  | GetResponse u c => u = user_input /\ c = ctx
  end.

(** The calls that hand the input over for an answer: [execute] of a
    plugin and [get_response]. *)
Definition is_dispatch (e : event) : bool :=
  match e with
  | CanHandle _ _ => false
  | Execute _ _ _ | GetResponse _ _ => true
  end.

(** What [get_response] answers once initialized. *)
Definition echo (user_input : string) : string :=
  "I understand you said: '" +:+ user_input +:+
  "'. I'm still learning how to help you better!".

(** What the [except] branch of [process_input] answers. *)
Definition apology (e : exn) : string :=
  "I'm sorry, I encountered an error: " +:+ str e.

(** The history's timestamps are clock readings taken in increasing order,
    all of them in the past. *)
Definition stamps_in_order {S} (w : world S) : Prop :=
  exists ns : list nat,
    timestamp <$> conversation_history w = isoformat w <$> ns /\
    StronglySorted lt ns /\
    Forall (fun n => n < clock w) ns.

(** The plugin classes the loop of [_load_plugin_from_file] instantiates:
    the subclasses of [BasePlugin] that the module itself defines, in the
    order of [inspect.getmembers]. *)
Definition own_classes {S} (module_name : string)
    (ms : list (string * class_obj S)) : list (plugin_class S) :=
  omap (fun m : string * class_obj S =>
          match m.2 with
          | PluginSubclass defined_in c =>
              if String.eqb defined_in module_name then Some c else None
          | BasePluginItself | OtherClass => None
          end) ms.

(** The registry after the instances of [cs] were assigned to
    [plugins[file_stem]] one after the other. *)
Definition register_all {S} (file_stem : string) (config : plugin_config)
    (cs : list (plugin_class S)) (d : list (string * BasePlugin S))
  : list (string * BasePlugin S) :=
  foldl (fun d c => match init c config with
                    | Ok i => dict_set d file_stem {| cls := c; self := i |}
                    | Raise _ => d
                    end) d cs.

(** What leaves [_load_plugin_from_file] when [e] was raised inside its
    [try]: the [PluginError] of its [except Exception] clause, or [e] itself
    when the clause does not catch it. *)
Definition load_failure {S} (f : plugin_file S) (e : exn) : exn :=
  if is_Exception e then
    PluginError ("Failed to load plugin from src/plugins/" +:+
                 stem f +:+ ".py: " +:+ str e)
  else e.

(** * Properties *)

(** ** Lists *)

Lemma last_n_short {A} (n : nat) (l : list A) :
  length l <= n -> last_n n l = l.
Proof.
  intros Hle. unfold last_n.
  assert (length l - n = 0) as -> by lia. reflexivity.
Qed.

Lemma length_last_n {A} (n : nat) (l : list A) :
  length (last_n n l) = Nat.min n (length l).
Proof. unfold last_n. rewrite length_drop. lia. Qed.

Lemma last_n_app_long {A} (n : nat) (l k : list A) :
  n <= length k -> last_n n (l ++ k) = last_n n k.
Proof.
  intros Hle. unfold last_n. rewrite length_app.
  rewrite drop_app_ge by lia. f_equal. lia.
Qed.

Lemma last_n_app_last_n {A} (n : nat) (l k : list A) :
  last_n n (last_n n l ++ k) = last_n n (l ++ k).
Proof.
  destruct (decide (n <= length k)) as [Hk|Hk].
  { rewrite !last_n_app_long by done. reflexivity. }
  unfold last_n. rewrite !length_app, length_drop.
  destruct (decide (length l <= n)) as [Hle|Hgt].
  - assert (length l - n = 0) as -> by lia.
    rewrite drop_0, Nat.sub_0_r. reflexivity.
  - rewrite !drop_app_le by (rewrite ?length_drop; lia).
    rewrite drop_drop. f_equal. f_equal. lia.
Qed.

(** ** Dictionaries *)

Lemma dict_get_None {S} (d : list (string * BasePlugin S)) (k : string) :
  dict_get d k = None <-> k ∉ keys d.
Proof.
  unfold keys. induction d as [|[k' v] d IH]; simpl.
  - split; [intros _; apply not_elem_of_nil | done].
  - rewrite not_elem_of_cons. destruct (decide (k' = k)) as [->|Hne].
    + split; [done | intros [? _]; done].
    + rewrite IH. split; [by intros H; split | by intros [_ H]].
Qed.

Lemma dict_get_Some {S} (d : list (string * BasePlugin S)) (k : string) p :
  dict_get d k = Some p -> (k, p) ∈ d.
Proof.
  induction d as [|[k' v] d IH]; simpl; [done|].
  destruct (decide (k' = k)) as [->|Hne].
  - intros [= ->]. apply list_elem_of_here.
  - intros H. apply list_elem_of_further, IH, H.
Qed.

Lemma dict_get_set_eq {S} (d : list (string * BasePlugin S)) k v :
  dict_get (dict_set d k v) k = Some v.
Proof.
  induction d as [|[k' v'] d IH]; simpl.
  - destruct (decide (k = k)); done.
  - destruct (decide (k' = k)) as [->|Hne]; simpl.
    + destruct (decide (k = k)); done.
    + destruct (decide (k' = k)); done.
Qed.

Lemma dict_get_set_ne {S} (d : list (string * BasePlugin S)) k k' v :
  k ≠ k' -> dict_get (dict_set d k v) k' = dict_get d k'.
Proof.
  intros Hne. induction d as [|[k0 v0] d IH]; simpl.
  - destruct (decide (k = k')); done.
  - destruct (decide (k0 = k)) as [->|Hne0]; simpl.
    + destruct (decide (k = k')); done.
    + destruct (decide (k0 = k')); done.
Qed.

Lemma keys_dict_set_present {S} (d : list (string * BasePlugin S)) k v :
  k ∈ keys d -> keys (dict_set d k v) = keys d.
Proof.
  unfold keys. induction d as [|[k' v'] d IH]; simpl.
  - intros H. by apply elem_of_nil in H.
  - intros H. destruct (decide (k' = k)) as [->|Hne]; simpl; [done|].
    f_equal. apply IH. apply elem_of_cons in H as [->|H]; done.
Qed.

Lemma keys_dict_set_fresh {S} (d : list (string * BasePlugin S)) k v :
  k ∉ keys d -> dict_set d k v = d ++ [(k, v)].
Proof.
  unfold keys. induction d as [|[k' v'] d IH]; simpl; [done|].
  intros H. apply not_elem_of_cons in H as [Hne Hnotin].
  destruct (decide (k' = k)) as [->|_]; [done|].
  f_equal. apply IH, Hnotin.
Qed.


(** Writing a changed plugin object back under its own key, at a position
    no earlier entry shares the key with. *)
Lemma dict_set_at {S} (pre post : list (string * BasePlugin S)) k v v' :
  k ∉ keys pre ->
  dict_set (pre ++ (k, v) :: post) k v' = pre ++ (k, v') :: post.
Proof.
  unfold keys. induction pre as [|[k0 v0] pre IH]; simpl.
  - intros _. destruct (decide (k = k)); done.
  - intros H. apply not_elem_of_cons in H as [Hne Hnotin].
    destruct (decide (k0 = k)) as [->|_]; [done|].
    f_equal. apply IH, Hnotin.
Qed.

(** ** Conversation state *)

Section Conversation.
Context {S : Type}.
Implicit Types w : world S.

Lemma add_exchange_eq w user_input assistant_response :
  add_exchange user_input assistant_response w =
  (Ok tt,
   set_history
     (fun h => last_n 50 (h ++ [exchange_at w user_input assistant_response]))
     (tick w)).
Proof.
  unfold add_exchange, bind, now_isoformat, modify, get, ret, exchange_at. simpl.
  destruct (50 <? _) eqn:Hlen; simpl; unfold set_history; simpl.
  - reflexivity.
  - apply Nat.ltb_ge in Hlen. rewrite last_n_short by done. reflexivity.
Qed.

(** C9: [reset] is idempotent, and after [reset_conversation] the state
    holds no exchanges: [is_active] is false and
    [get_last_interaction_time] is [None]. *)
Theorem reset_idempotent_and_inactive w :
  reset (snd (reset w)) = (Ok tt, snd (reset w)) /\
  snd (reset (snd (reset w))) = snd (reset w) /\
  let w' := snd (reset_conversation w) in
  fst (reset_conversation w) = Ok tt /\
  conversation_history w' = [] /\
  is_active w' = false /\
  get_last_interaction_time w' = None /\
  conversation_active (get_status w') = false /\
  last_interaction (get_status w') = None.
Proof.
  simpl. split_and!; reflexivity.
Qed.

(** C10: while [_initialized] is still false, [get_response] returns the
    fixed string for every input and context, and changes nothing: no
    exchange is appended. *)
Theorem uninitialized_get_response w (user_input : string) (c : context) :
  _initialized w = false ->
  get_response user_input c w =
    (Ok "I'm not properly initialized yet. Please check the configuration.", w) /\
  conversation_history (get_response user_input c w).2 = conversation_history w.
Proof.
  intros Hinit. unfold get_response, bind, get. simpl.
  rewrite Hinit. done.
Qed.

(** C8: [get_plugin] returns the plugin registered under the name when
    there is one, raises [PluginError] exactly when there is none, and
    leaves the world as it was either way. *)
Theorem get_plugin_found_or_not_found w (name : string) :
  snd (get_plugin name w) = w /\
  (forall p, dict_get (plugins w) name = Some p ->
             fst (get_plugin name w) = Ok p) /\
  (name ∈ keys (plugins w) ->
   exists p, (name, p) ∈ plugins w /\ fst (get_plugin name w) = Ok p) /\
  (name ∉ keys (plugins w) <->
   fst (get_plugin name w) =
     Raise (PluginError ("Plugin '" +:+ name +:+ "' not found"))) /\
  (name ∉ keys (plugins w) <->
   exists e, fst (get_plugin name w) = Raise e).
Proof.
  unfold get_plugin, bind, get, raise, ret. simpl.
  rewrite <- dict_get_None.
  destruct (dict_get (plugins w) name) as [p|] eqn:Hget; simpl.
  - split; [done|]. split; [by intros p' [= ->]|]. split.
    { intros _. exists p. split; [by apply dict_get_Some | done]. }
    split; (split; [done|]); [done | intros [e He]; done].
  - split; [done|]. split; [done|]. split.
    { intros Hin. apply dict_get_None in Hget. done. }
    split; (split; [|done]); [done | eauto].
Qed.

End Conversation.

(** ** The routing loop *)

Section Routing.
Context {S : Type}.
Implicit Types w : world S.
Implicit Types entries pre post : list (string * BasePlugin S).

Lemma record_calls_nil w : record_calls [] w = w.
Proof. destruct w. unfold record_calls. simpl. by rewrite app_nil_r. Qed.

Lemma record_calls_cons e es w :
  record_calls es (record_call e w) = record_calls (e :: es) w.
Proof. unfold record_calls, record_call. simpl. by rewrite <- app_assoc. Qed.

Lemma record_calls_app es1 es2 w :
  record_calls es2 (record_calls es1 w) = record_calls (es1 ++ es2) w.
Proof. unfold record_calls. simpl. by rewrite <- app_assoc. Qed.

(** No plugin claims the input: the loop ends and the code after it runs. *)
Lemma for_plugins_unclaimed entries user_input ctx otherwise w :
  Forall (declines user_input) entries ->
  for_plugins entries user_input ctx otherwise w =
  otherwise (record_calls (scan_log user_input entries) w).
Proof.
  intros Hdecl. revert w. induction Hdecl as [|[k p] entries Hp _ IH]; intros w.
  - simpl. by rewrite record_calls_nil.
  - simpl. unfold bind at 1, call_can_handle. unfold declines in Hp. simpl in Hp.
    rewrite Hp. rewrite IH. by rewrite record_calls_cons.
Qed.

(** The first plugin that does not decline claims the input: the loop
    stops there and runs the body of its [if]. *)
Lemma for_plugins_claimed pre k p post user_input ctx otherwise w :
  Forall (declines user_input) pre ->
  claims user_input (k, p) ->
  for_plugins (pre ++ (k, p) :: post) user_input ctx otherwise w =
  (response <- call_execute k p user_input ctx ;;
   add_exchange user_input response ;;;
   ret response)
    (record_calls (scan_log user_input (pre ++ [(k, p)])) w).
Proof.
  intros Hdecl Hclaim. revert w.
  induction Hdecl as [|[k0 p0] pre Hp _ IH]; intros w.
  - simpl. unfold bind at 1, call_can_handle. unfold claims in Hclaim.
    simpl in Hclaim. rewrite Hclaim.
    by rewrite <- (record_calls_nil (record_call _ w)), record_calls_cons.
  - simpl. unfold bind at 1, call_can_handle. unfold declines in Hp. simpl in Hp.
    rewrite Hp. rewrite IH. by rewrite record_calls_cons.
Qed.

(** The first plugin that does not decline raises from [can_handle]. *)
Lemma for_plugins_faulted pre k p post e user_input ctx otherwise w :
  Forall (declines user_input) pre ->
  can_handle (cls p) (self p) user_input = Raise e ->
  for_plugins (pre ++ (k, p) :: post) user_input ctx otherwise w =
  (Raise e, record_calls (scan_log user_input (pre ++ [(k, p)])) w).
Proof.
  intros Hdecl Hraise. revert w.
  induction Hdecl as [|[k0 p0] pre Hp _ IH]; intros w.
  - simpl. unfold bind at 1, call_can_handle. rewrite Hraise.
    by rewrite <- (record_calls_nil (record_call _ w)), record_calls_cons.
  - simpl. unfold bind at 1, call_can_handle. unfold declines in Hp. simpl in Hp.
    rewrite Hp. rewrite IH. by rewrite record_calls_cons.
Qed.

(** Every scan ends in one of the three ways. *)
Lemma scan_cases entries user_input :
  Forall (declines user_input) entries \/
  exists pre k p post,
    entries = pre ++ (k, p) :: post /\
    Forall (declines user_input) pre /\
    (claims user_input (k, p) \/
     exists e, can_handle (cls p) (self p) user_input = Raise e).
Proof.
  induction entries as [|[k p] entries IH].
  - left. constructor.
  - destruct (can_handle (cls p) (self p) user_input) as [[|]|e] eqn:Hp.
    + right. exists [], k, p, entries. split_and!; [done|constructor|by left].
    + destruct IH as [Hall|(pre & k' & p' & post & -> & Hpre & Hend)].
      * left. by constructor.
      * right. exists ((k, p) :: pre), k', p', post.
        split_and!; [done|by constructor|done].
    + right. exists [], k, p, entries. split_and!; [done|constructor|eauto].
Qed.

Lemma process_input_body_eq user_input (ctx : option context) w :
  process_input_body user_input ctx w =
  let enhanced := enhanced_context (isoformat w (clock w)) user_input ctx in
  for_plugins (plugins w) user_input enhanced
    (call_get_response user_input enhanced) (tick w).
Proof. reflexivity. Qed.

End Routing.

(** ** The orchestrator *)

Section Orchestrator.
Context {S : Type}.
Implicit Types w : world S.
Implicit Types entries pre post : list (string * BasePlugin S).
Implicit Types ctx : option context.

Lemma get_response_eq user_input (c : context) w :
  get_response user_input c w =
  if _initialized w then
    (Ok (echo user_input),
     set_history
       (fun h => last_n 50 (h ++ [exchange_at w user_input (echo user_input)]))
       (tick w))
  else
    (Ok "I'm not properly initialized yet. Please check the configuration.", w).
Proof.
  unfold get_response, bind at 1, get. simpl.
  destruct (_initialized w) eqn:Hinit; simpl; [|reflexivity].
  unfold try_except, bind. fold (echo user_input).
  rewrite add_exchange_eq. reflexivity.
Qed.

(** The whole call when no plugin claims the input. *)
Lemma unclaimed_run user_input ctx w :
  Forall (declines user_input) (plugins w) ->
  let enhanced := enhanced_context (isoformat w (clock w)) user_input ctx in
  process_input_body user_input ctx w =
  get_response user_input enhanced
    (record_calls (scan_log user_input (plugins w) ++
                   [GetResponse user_input enhanced]) (tick w)).
Proof.
  intros Hdecl enhanced. rewrite process_input_body_eq. simpl.
  rewrite for_plugins_unclaimed by done.
  unfold call_get_response, bind at 1, modify. simpl.
  rewrite <- (record_calls_nil (record_call _ _)), record_calls_cons.
  by rewrite record_calls_app.
Qed.

(** The whole call when a plugin claims the input, whatever [execute]
    does. *)
Lemma claimed_run user_input ctx w pre k p post :
  plugins w = pre ++ (k, p) :: post ->
  Forall (declines user_input) pre ->
  claims user_input (k, p) ->
  let enhanced := enhanced_context (isoformat w (clock w)) user_input ctx in
  let w1 := set_plugins
              (fun d => dict_set d k
                 {| cls := cls p;
                    self := (execute (cls p) (self p) user_input enhanced).2 |})
              (record_calls (scan_log user_input pre ++
                             [CanHandle k user_input;
                              Execute k user_input enhanced]) (tick w)) in
  process_input_body user_input ctx w =
  match (execute (cls p) (self p) user_input enhanced).1 with
  | Ok response =>
      (Ok response,
       set_history
         (fun h => last_n 50 (h ++ [exchange_at w1 user_input response]))
         (tick w1))
  | Raise e => (Raise e, w1)
  end.
Proof.
  intros Hreg Hdecl Hclaim enhanced w1. rewrite process_input_body_eq. simpl.
  rewrite Hreg, for_plugins_claimed by done.
  unfold bind at 1, call_execute. fold enhanced.
  destruct (execute (cls p) (self p) user_input enhanced) as [r self'] eqn:Hexec.
  assert (Hw1 : set_plugins
                  (fun d => dict_set d k {| cls := cls p; self := self' |})
                  (record_call (Execute k user_input enhanced)
                     (record_calls (scan_log user_input (pre ++ [(k, p)]))
                        (tick w))) = w1).
  { unfold w1, set_plugins, record_call, record_calls, scan_log. simpl.
    rewrite fmap_app, <- !app_assoc. reflexivity. }
  rewrite Hw1. simpl. destruct r as [response|e]; [|reflexivity].
  unfold bind. rewrite add_exchange_eq. reflexivity.
Qed.

(** The whole call when [can_handle] raises. *)
Lemma faulted_run user_input ctx w pre k p post e :
  plugins w = pre ++ (k, p) :: post ->
  Forall (declines user_input) pre ->
  can_handle (cls p) (self p) user_input = Raise e ->
  process_input_body user_input ctx w =
  (Raise e, record_calls (scan_log user_input (pre ++ [(k, p)])) (tick w)).
Proof.
  intros Hreg Hdecl Hraise. rewrite process_input_body_eq. simpl.
  rewrite Hreg. by apply for_plugins_faulted.
Qed.

Lemma process_input_eq user_input ctx w :
  process_input user_input ctx w =
  match process_input_body user_input ctx w with
  | (Ok response, w') => (Ok response, w')
  | (Raise e, w') =>
      if is_Exception e then (Ok (apology e), w') else (Raise e, w')
  end.
Proof.
  unfold process_input, try_except.
  destruct (process_input_body user_input ctx w) as [[response|e] w'];
    [reflexivity|].
  destruct (is_Exception e); reflexivity.
Qed.

(** What one call does to the conversation state: nothing, or one
    exchange appended for the input and the returned response. *)
Lemma process_input_body_history user_input ctx w :
  match process_input_body user_input ctx w with
  | (Ok response, w') =>
      _initialized w' = _initialized w /\
      (_initialized w = false /\
       conversation_history w' = conversation_history w \/
       exists ts,
         conversation_history w' =
         last_n 50 (conversation_history w ++
                    [{| timestamp := ts; user := user_input;
                        assistant := response |}]))
  | (Raise e, w') =>
      _initialized w' = _initialized w /\
      conversation_history w' = conversation_history w
  end.
Proof.
  destruct (scan_cases (plugins w) user_input)
    as [Hall|(pre & k & p & post & Hreg & Hpre & [Hclaim|[e He]])].
  - rewrite unclaimed_run by done. simpl. rewrite get_response_eq. simpl.
    destruct (_initialized w) eqn:Hinit; simpl.
    + split; [done|]. right. eexists. reflexivity.
    + split; [done|]. left. done.
  - rewrite (claimed_run _ _ _ _ _ _ _ Hreg Hpre Hclaim). simpl.
    destruct (execute _ _ _ _).1 as [response|e]; simpl.
    + split; [done|]. right. eexists. reflexivity.
    + done.
  - rewrite (faulted_run _ _ _ _ _ _ _ _ Hreg Hpre He). simpl. done.
Qed.

Lemma Forall_carries_scan_log user_input (c : context) entries :
  Forall (carries user_input c) (scan_log user_input entries).
Proof. unfold scan_log. apply Forall_fmap, Forall_true. intros entry. reflexivity. Qed.


(** No call changes [_initialized]: what [PersonalAssistant.__init__]
    established holds for every later call. *)
Lemma process_input_keeps_initialized user_input ctx w :
  _initialized (process_input user_input ctx w).2 = _initialized w.
Proof.
  rewrite process_input_eq.
  pose proof (process_input_body_history user_input ctx w) as Hhist.
  destruct (process_input_body user_input ctx w) as [[response|e] w']; simpl.
  - by destruct Hhist as [-> _].
  - destruct Hhist as [Hinit _]. by destruct (is_Exception e).
Qed.

(** One successful call, once initialized, appends one exchange. *)
Lemma successful_call_appends user_input ctx w response w' :
  _initialized w = true ->
  process_input_body user_input ctx w = (Ok response, w') ->
  process_input user_input ctx w = (Ok response, w') /\
  _initialized w' = true /\
  exists ex,
    user ex = user_input /\ assistant ex = response /\
    conversation_history w' = last_n 50 (conversation_history w ++ [ex]).
Proof.
  intros Hinit Hbody. rewrite process_input_eq, Hbody. split; [done|].
  pose proof (process_input_body_history user_input ctx w) as Hhist.
  rewrite Hbody in Hhist. destruct Hhist as [Hinit' [[Hfalse _]|[ts Hts]]].
  - congruence.
  - split; [congruence|]. eexists. split_and!; [| |exact Hts]; done.
Qed.

(** The conversation state after a run of successful calls. *)
Lemma process_all_history (requests : list (string * option context)) w :
  _initialized w = true ->
  length (conversation_history w) <= 50 ->
  all_succeed requests w = true ->
  exists es,
    user <$> es = requests.*1 /\
    (fun ex => Ok (assistant ex)) <$> es = (process_all requests w).1 /\
    conversation_history (process_all requests w).2 =
      last_n 50 (conversation_history w ++ es).
Proof.
  revert w. induction requests as [|[user_input ctx] rest IH];
    intros w Hinit Hlen Hok.
  - exists []. simpl. rewrite app_nil_r, last_n_short by done. done.
  - simpl in Hok. simpl.
    destruct (process_input_body user_input ctx w) as [[response|e] w1] eqn:Hbody;
      [|done].
    destruct (successful_call_appends _ _ _ _ _ Hinit Hbody)
      as (Hcall & Hinit1 & ex & Hu & Ha & Hhist).
    rewrite Hcall.
    destruct (IH w1 Hinit1) as (es & Hus & Has & Hfinal); [|done|].
    { rewrite Hhist, length_last_n. lia. }
    destruct (process_all rest w1) as [rs w2]. cbn [fst snd] in *.
    exists (ex :: es). rewrite !fmap_cons, Hu, Ha, Hus, Has.
    split_and!; [done|done|].
    rewrite Hfinal, Hhist, last_n_app_last_n, <- app_assoc. done.
Qed.

(** Any run of calls, faulted or not, keeps a history of at most 50
    exchanges within that bound. *)
Lemma process_all_bound (requests : list (string * option context)) w :
  length (conversation_history w) <= 50 ->
  length (conversation_history (process_all requests w).2) <= 50.
Proof.
  revert w. induction requests as [|[user_input ctx] rest IH]; intros w Hlen.
  - done.
  - simpl. rewrite process_input_eq.
    pose proof (process_input_body_history user_input ctx w) as Hhist.
    destruct (process_input_body user_input ctx w) as [[response|e] w1].
    + specialize (IH w1). destruct (process_all rest w1) as [rs w2].
      cbn [fst snd] in *.
      apply IH. destruct Hhist as [_ [[_ ->]|[ts ->]]]; [done|].
      rewrite length_last_n. lia.
    + specialize (IH w1). destruct (is_Exception e).
      * destruct (process_all rest w1) as [rs w2]. cbn [fst snd] in *.
        apply IH. destruct Hhist as [_ ->]. done.
      * destruct (process_all rest w1) as [rs w2]. cbn [fst snd] in *.
        apply IH. destruct Hhist as [_ ->]. done.
Qed.

(** C5: every [add_exchange] leaves at most 50 exchanges, namely the last
    50 of the old history followed by the new exchange, so no run of calls
    takes the history past 50; and after more than 50 successful calls
    the history is exactly the exchanges of the 50 most recent calls, in
    the order of the calls. *)
Theorem history_holds_the_50_most_recent
    (requests : list (string * option context)) w :
  _initialized w = true ->
  all_succeed requests w = true ->
  50 < length requests ->
  (exists es,
     user <$> es = requests.*1 /\
     (fun ex => Ok (assistant ex)) <$> es = (process_all requests w).1 /\
     conversation_history (process_all requests w).2 = last_n 50 es /\
     length (conversation_history (process_all requests w).2) = 50) /\
  (forall w0 u r,
     conversation_history (add_exchange u r w0).2 =
       last_n 50 (conversation_history w0 ++ [exchange_at w0 u r]) /\
     length (conversation_history (add_exchange u r w0).2) <= 50) /\
  (forall w0 (rs : list (string * option context)),
     length (conversation_history w0) <= 50 ->
     length (conversation_history (process_all rs w0).2) <= 50).
Proof.
  intros Hinit Hok Hmany. split; [|split].
  - destruct requests as [|[user_input ctx] rest]; [simpl in Hmany; lia|].
    simpl in Hok, Hmany. simpl.
    destruct (process_input_body user_input ctx w) as [[response|e] w1] eqn:Hbody;
      [|done].
    destruct (successful_call_appends _ _ _ _ _ Hinit Hbody)
      as (Hcall & Hinit1 & ex & Hu & Ha & Hhist).
    rewrite Hcall.
    destruct (process_all_history rest w1 Hinit1) as (es & Hus & Has & Hfinal);
      [|done|].
    { rewrite Hhist, length_last_n. lia. }
    destruct (process_all rest w1) as [rs w2]. cbn [fst snd] in *.
    assert (Hes : length es = length rest).
    { rewrite <- (length_fmap user es), Hus, length_fmap. done. }
    exists (ex :: es). rewrite !fmap_cons, Hu, Ha, Hus, Has.
    split_and!; [done|done| |].
    + rewrite Hfinal, Hhist, last_n_app_last_n, <- app_assoc.
      apply (last_n_app_long 50 _ (ex :: es)). cbn [length]. lia.
    + rewrite Hfinal, length_last_n, length_app, Hes. lia.
  - intros w0 u r. rewrite add_exchange_eq. simpl.
    split; [done|]. rewrite length_last_n. lia.
  - intros w0 rs. apply process_all_bound.
Qed.

(** C6, as the code has it: when no registered plugin claims the input,
    enabled or not, and the conversation manager is initialized,
    [process_input] calls [get_response] with the context it built,
    returns its answer, and that exchange is the one appended. *)
Theorem unclaimed_input_goes_to_get_response user_input ctx w :
  _initialized w = true ->
  Forall (declines user_input) (plugins w) ->
  let enhanced := enhanced_context (isoformat w (clock w)) user_input ctx in
  let w1 := record_calls (scan_log user_input (plugins w) ++
                          [GetResponse user_input enhanced]) (tick w) in
  process_input user_input ctx w = get_response user_input enhanced w1 /\
  (process_input user_input ctx w).1 = Ok (echo user_input) /\
  calls (process_input user_input ctx w).2 =
    calls w ++ scan_log user_input (plugins w) ++
    [GetResponse user_input enhanced] /\
  conversation_history (process_input user_input ctx w).2 =
    last_n 50 (conversation_history w ++
               [{| timestamp := isoformat w (Datatypes.S (clock w));
                   user := user_input; assistant := echo user_input |}]) /\
  plugins (process_input user_input ctx w).2 = plugins w.
Proof.
  intros Hinit Hdecl enhanced w1.
  rewrite process_input_eq, unclaimed_run by done.
  fold enhanced. fold w1. rewrite get_response_eq.
  assert (_initialized w1 = true) as -> by done. simpl. done.
Qed.

(** The calls and the answer when a plugin claims the input. *)
Lemma claimed_calls user_input ctx w pre k p post :
  plugins w = pre ++ (k, p) :: post ->
  Forall (declines user_input) pre ->
  claims user_input (k, p) ->
  let enhanced := enhanced_context (isoformat w (clock w)) user_input ctx in
  calls (process_input user_input ctx w).2 =
    calls w ++ scan_log user_input pre ++
    [CanHandle k user_input; Execute k user_input enhanced] /\
  (process_input user_input ctx w).1 =
    match (execute (cls p) (self p) user_input enhanced).1 with
    | Ok response => Ok response
    | Raise e => if is_Exception e then Ok (apology e) else Raise e
    end.
Proof.
  intros Hreg Hdecl Hclaim enhanced.
  rewrite process_input_eq, (claimed_run _ _ _ _ _ _ _ Hreg Hdecl Hclaim).
  fold enhanced. destruct (execute _ _ _ _).1 as [response|e]; [done|].
  destruct (is_Exception e); done.
Qed.

Lemma Execute_in_scan_log name u c user_input entries :
  Execute name u c ∉ scan_log user_input entries.
Proof.
  unfold scan_log. intros Hin. apply list_elem_of_fmap in Hin as (entry & Heq & _).
  discriminate.
Qed.

(** C1, as the code has it: the routing loop asks every plugin in
    insertion order and never reads [enabled]; a disabled plugin that is
    the first to claim the input has its [execute] invoked and its answer
    returned. *)
Theorem disabled_first_claimant_is_routed_to user_input ctx w pre k p post :
  plugins w = pre ++ (k, p) :: post ->
  is_enabled p = false ->
  Forall (declines user_input) pre ->
  claims user_input (k, p) ->
  let enhanced := enhanced_context (isoformat w (clock w)) user_input ctx in
  Execute k user_input enhanced ∈ calls (process_input user_input ctx w).2 /\
  calls (process_input user_input ctx w).2 =
    calls w ++ scan_log user_input pre ++
    [CanHandle k user_input; Execute k user_input enhanced] /\
  (forall response self',
     execute (cls p) (self p) user_input enhanced = (Ok response, self') ->
     (process_input user_input ctx w).1 = Ok response).
Proof.
  intros Hreg _ Hdecl Hclaim enhanced.
  destruct (claimed_calls user_input ctx w _ _ _ _ Hreg Hdecl Hclaim)
    as [Hcalls Hanswer].
  fold enhanced in Hcalls, Hanswer. split_and!.
  - rewrite Hcalls. set_solver.
  - exact Hcalls.
  - intros response self' Hexec. rewrite Hanswer, Hexec. done.
Qed.

(** C2, as the code has it: when two or more plugins claim the input,
    enabled or not, [process_input] invokes [execute] of the claimant
    registered earliest and of no other plugin, returns its response and
    records the exchange; which plugin that is depends on the registry and
    the input alone. *)
Theorem first_claimant_wins user_input ctx w pre k p post k2 p2 response self' :
  NoDup (keys (plugins w)) ->
  plugins w = pre ++ (k, p) :: post ->
  Forall (declines user_input) pre ->
  claims user_input (k, p) ->
  (k2, p2) ∈ post ->
  claims user_input (k2, p2) ->
  execute (cls p) (self p) user_input
    (enhanced_context (isoformat w (clock w)) user_input ctx) =
    (Ok response, self') ->
  let enhanced := enhanced_context (isoformat w (clock w)) user_input ctx in
  let new_calls := scan_log user_input pre ++
                   [CanHandle k user_input; Execute k user_input enhanced] in
  (process_input user_input ctx w).1 = Ok response /\
  calls (process_input user_input ctx w).2 = calls w ++ new_calls /\
  (forall k' u c, Execute k' u c ∈ new_calls -> k' = k) /\
  k2 ≠ k /\
  plugins (process_input user_input ctx w).2 =
    pre ++ (k, {| cls := cls p; self := self' |}) :: post /\
  (exists ex,
     user ex = user_input /\ assistant ex = response /\
     conversation_history (process_input user_input ctx w).2 =
       last_n 50 (conversation_history w ++ [ex])) /\
  (forall w2 ctx2,
     plugins w2 = plugins w ->
     exists c2,
       calls (process_input user_input ctx2 w2).2 =
         calls w2 ++ scan_log user_input pre ++
         [CanHandle k user_input; Execute k user_input c2]).
Proof.
  intros Hnodup Hreg Hdecl Hclaim Hin2 Hclaim2 Hexec enhanced new_calls.
  destruct (claimed_calls user_input ctx w _ _ _ _ Hreg Hdecl Hclaim)
    as [Hcalls Hanswer].
  fold enhanced in Hcalls, Hanswer, Hexec.
  assert (Hkeys : (k ∉ keys pre) /\ (k ∉ keys post)).
  { rewrite Hreg in Hnodup. unfold keys in *. rewrite fmap_app, fmap_cons in Hnodup.
    apply NoDup_app in Hnodup as (_ & Hdisj & Hnd).
    apply NoDup_cons in Hnd as [Hpost _]. split; [|done].
    intros Hpre. apply (Hdisj _ Hpre). apply list_elem_of_here. }
  destruct Hkeys as [Hkpre Hkpost].
  split_and!.
  - rewrite Hanswer, Hexec. done.
  - exact Hcalls.
  - intros k' u c Hin. unfold new_calls in Hin.
    apply elem_of_app in Hin as [Hin|Hin].
    + by apply Execute_in_scan_log in Hin.
    + apply elem_of_cons in Hin as [Hin|Hin]; [discriminate|].
      apply list_elem_of_singleton in Hin. congruence.
  - intros ->. apply Hkpost. unfold keys.
    apply list_elem_of_fmap. exists (k, p2). done.
  - rewrite process_input_eq, (claimed_run _ _ _ _ _ _ _ Hreg Hdecl Hclaim).
    fold enhanced. rewrite Hexec. simpl. rewrite Hreg. by apply dict_set_at.
  - rewrite process_input_eq, (claimed_run _ _ _ _ _ _ _ Hreg Hdecl Hclaim).
    fold enhanced. rewrite Hexec. simpl. eexists. split_and!; [| |reflexivity]; done.
  - intros w2 ctx2 Hsame. rewrite <- Hsame in Hreg.
    destruct (claimed_calls user_input ctx2 w2 _ _ _ _ Hreg Hdecl Hclaim)
      as [Hcalls2 _].
    eexists. exact Hcalls2.
Qed.

(** C3, as the code has it: every [execute] and [get_response] call of
    [process_input] receives the dict display's value, in which each entry
    of the caller's context is kept, also under "timestamp" and
    "user_input"; the orchestrator's timestamp and input are there only
    under the keys the caller left free. *)
Theorem caller_context_overrides_reserved_keys user_input ctx w :
  let ts := isoformat w (clock w) in
  let enhanced := enhanced_context ts user_input ctx in
  (exists new_calls,
     calls (process_input user_input ctx w).2 = calls w ++ new_calls /\
     Forall (carries user_input enhanced) new_calls) /\
  (forall key v, (default ∅ ctx) !! key = Some v -> enhanced !! key = Some v) /\
  ((default ∅ ctx) !! "timestamp" = None ->
   enhanced !! "timestamp" = Some (PyStr ts)) /\
  ((default ∅ ctx) !! "user_input" = None ->
   enhanced !! "user_input" = Some (PyStr user_input)) /\
  (forall key, key ≠ "timestamp" -> key ≠ "user_input" ->
               enhanced !! key = (default ∅ ctx) !! key).
Proof.
  intros ts enhanced. split_and!.
  - rewrite process_input_eq.
    destruct (scan_cases (plugins w) user_input)
      as [Hall|(pre & k & p & post & Hreg & Hpre & [Hclaim|[e He]])].
    + rewrite unclaimed_run by done. fold ts. fold enhanced.
      rewrite get_response_eq. eexists. split.
      * destruct (_initialized _); simpl; reflexivity.
      * apply Forall_app. split; [apply Forall_carries_scan_log|].
        repeat constructor.
    + rewrite (claimed_run _ _ _ _ _ _ _ Hreg Hpre Hclaim). fold ts. fold enhanced.
      eexists. split.
      * destruct (execute _ _ _ _).1 as [response|e]; [simpl; reflexivity|].
        destruct (is_Exception e); simpl; reflexivity.
      * apply Forall_app. split; [apply Forall_carries_scan_log|].
        repeat constructor.
    + rewrite (faulted_run _ _ _ _ _ _ _ _ Hreg Hpre He).
      eexists. split; [destruct (is_Exception e); reflexivity|].
      apply Forall_carries_scan_log.
  - intros key v Hkey. unfold enhanced, enhanced_context.
    by apply lookup_union_Some_l.
  - intros Hfree. unfold enhanced, enhanced_context.
    rewrite lookup_union_r by done.
    rewrite lookup_insert_ne by done. by rewrite lookup_insert_eq.
  - intros Hfree. unfold enhanced, enhanced_context.
    rewrite lookup_union_r by done. by rewrite lookup_insert_eq.
  - intros key Hts Hui. unfold enhanced, enhanced_context.
    destruct ((default ∅ ctx) !! key) as [v|] eqn:Hkey.
    + by apply lookup_union_Some_l.
    + rewrite lookup_union_r by done.
      rewrite !lookup_insert_ne by done. apply lookup_empty.
Qed.

End Orchestrator.

(** ** The loader *)

Section Loader.
Context {S : Type}.
Implicit Types w : world S.


Lemma _load_plugin_from_file_eq (f : plugin_file S) w :
  _load_plugin_from_file f w =
  match members f with
  | Ok ms =>
      match load_members (stem f) ("src.plugins." +:+ stem f) ms w with
      | (Ok a, w') => (Ok a, w')
      | (Raise e, w') => (Raise (load_failure f e), w')
      end
  | Raise e => (Raise (load_failure f e), w)
  end.
Proof.
  unfold _load_plugin_from_file, try_except, bind at 1, load_failure, raise.
  destruct (members f) as [ms|e]; cbn.
  - destruct (load_members _ _ ms w) as [[a|e] w']; [done|].
    by destruct (is_Exception e).
  - by destruct (is_Exception e).
Qed.


(** One turn of the loop of [load_plugins]: an [Exception] from the file is
    swallowed, any other exception ends the loop. *)
Lemma load_files_cons (f : plugin_file S) rest w :
  load_files (f :: rest) w =
  if String.prefix "__" (stem f +:+ ".py") then load_files rest w
  else
    match _load_plugin_from_file f w with
    | (Ok _, w') => load_files rest w'
    | (Raise e, w') =>
        if is_Exception e then load_files rest w' else (Raise e, w')
    end.
Proof.
  cbn [load_files]. destruct (String.prefix _ _); [done|].
  unfold bind at 1, try_except at 1.
  destruct (_load_plugin_from_file f w) as [[[]|e] w']; [done|].
  by destruct (is_Exception e).
Qed.


(** One turn of the loop for a plugin class the module itself defines. *)
Lemma load_members_subclass file_stem module_name name c rest w :
  load_members file_stem module_name
    ((name, PluginSubclass module_name c) :: rest) w =
  match init c (default ∅ (config_plugins w !! file_stem)) with
  | Ok plugin_instance =>
      load_members file_stem module_name rest
        (set_plugins
           (fun d => dict_set d file_stem {| cls := c; self := plugin_instance |})
           w)
  | Raise e => (Raise e, w)
  end.
Proof.
  simpl. rewrite String.eqb_refl. unfold bind, get, modify. simpl.
  destruct (init c _); reflexivity.
Qed.



(** [_initialize]: [initialize] only sets the flag, so what can fail is
    the loading. *)
Lemma _initialize_eq w :
  _initialize w =
  match load_plugins w with
  | (Ok _, w1) => (Ok tt, set_initialized true w1)
  | (Raise e, w1) =>
      if is_Exception e then
        (Raise (AssistantError ("Initialization failed: " +:+ str e)), w1)
      else (Raise e, w1)
  end.
Proof.
  unfold _initialize, initialize, try_except, bind.
  destruct (load_plugins w) as [[[]|e] w1]; reflexivity.
Qed.

(** Every constructed assistant has an initialized conversation manager. *)
Lemma PersonalAssistant_initialized dir iso t cfg :
  (PersonalAssistant (S:=S) dir iso t cfg).1 = Ok tt ->
  _initialized (PersonalAssistant (S:=S) dir iso t cfg).2 = true.
Proof.
  unfold PersonalAssistant. rewrite _initialize_eq.
  destruct (load_plugins _) as [[[]|e] w1]; [done|].
  by destruct (is_Exception e).
Qed.


End Loader.

(** ** The properties on the example worlds *)

Lemma disabled_first_claimant_is_routed_to_witness :
  Execute "reminders" "remind me to call"
    (enhanced_context "T+0" "remind me to call" None)
    ∈ calls (process_input "remind me to call" None
               (example_world (two_claimants false))).2.
Proof.
  refine (proj1 (disabled_first_claimant_is_routed_to
            "remind me to call" None (example_world (two_claimants false))
            [("weather", new_plugin (keyword_class "weather" "W: ") true)]
            "reminders" (new_plugin (keyword_class "remind" "A: ") false)
            [("tasks", new_plugin (keyword_class "remind me" "B: ") true);
             ("notes", new_plugin (keyword_class "remind" "C: ") true)]
            _ _ _ _)).
  - reflexivity.
  - reflexivity.
  - repeat constructor.
  - reflexivity.
Defined.

(** The calls of one request in the world where "reminders" is disabled. *)
Lemma calls_with_reminders_disabled :
  calls (process_input "remind me to call" None
           (example_world (two_claimants false))).2 =
  [ CanHandle "weather" "remind me to call";
    CanHandle "reminders" "remind me to call";
    Execute "reminders" "remind me to call"
      (enhanced_context "T+0" "remind me to call" None) ].
Proof. vm_compute. reflexivity. Qed.

(** C1 fails on the code: a registered plugin with [enabled = false]
    claims the input and its [execute] is invoked. *)
Lemma disabled_plugin_is_executed :
  ~ (forall k p c,
       (k, p) ∈ plugins (example_world (two_claimants false)) ->
       is_enabled p = false ->
       Execute k "remind me to call" c
         ∉ calls (process_input "remind me to call" None
                    (example_world (two_claimants false))).2).
Proof.
  intros Hnever.
  apply (Hnever "reminders" (new_plugin (keyword_class "remind" "A: ") false)
           (enhanced_context "T+0" "remind me to call" None)).
  - apply list_elem_of_further, list_elem_of_here.
  - reflexivity.
  - rewrite calls_with_reminders_disabled.
    apply list_elem_of_further, list_elem_of_further, list_elem_of_here.
Qed.

Lemma first_claimant_wins_witness :
  (process_input "remind me to call" None
     (example_world (two_claimants true))).1 = Ok "A: remind me to call" /\
  calls (process_input "remind me to call" None
           (example_world (two_claimants true))).2 =
    [ CanHandle "weather" "remind me to call";
      CanHandle "reminders" "remind me to call";
      Execute "reminders" "remind me to call"
        (enhanced_context "T+0" "remind me to call" None) ].
Proof.
  destruct (first_claimant_wins
              "remind me to call" None (example_world (two_claimants true))
              [("weather", new_plugin (keyword_class "weather" "W: ") true)]
              "reminders" (new_plugin (keyword_class "remind" "A: ") true)
              [("tasks", new_plugin (keyword_class "remind me" "B: ") true);
               ("notes", new_plugin (keyword_class "remind" "C: ") true)]
              "tasks" (new_plugin (keyword_class "remind me" "B: ") true)
              "A: remind me to call"
              (executed_once {| enabled := true; attrs := 0 |}))
    as (Hanswer & Hcalls & _).
  - change (NoDup ["weather"; "reminders"; "tasks"; "notes"]).
    apply (bool_decide_unpack _). vm_compute. exact I.
  - reflexivity.
  - repeat constructor.
  - reflexivity.
  - apply list_elem_of_here.
  - reflexivity.
  - reflexivity.
  - split; [exact Hanswer | exact Hcalls].
Defined.

(** C2 fails on the code: "tasks" is the earliest enabled plugin that
    claims the input and "notes" is another, yet the answer is not that of
    "tasks": the disabled "reminders", registered before both, is
    executed. *)
Lemma earliest_enabled_claimant_loses :
  ~ (forall pre k p post,
       plugins (example_world (two_claimants false)) = pre ++ (k, p) :: post ->
       is_enabled p = true ->
       claims "remind me to call" (k, p) ->
       Forall (fun entry => is_enabled entry.2 = true ->
                            declines "remind me to call" entry) pre ->
       Exists (fun entry => is_enabled entry.2 = true /\
                            claims "remind me to call" entry) post ->
       (process_input "remind me to call" None
          (example_world (two_claimants false))).1 =
         (execute (cls p) (self p) "remind me to call"
            (enhanced_context "T+0" "remind me to call" None)).1 /\
       forall k' c,
         Execute k' "remind me to call" c
           ∈ calls (process_input "remind me to call" None
                      (example_world (two_claimants false))).2 ->
         k' = k).
Proof.
  intros Hclaim.
  destruct (Hclaim
              [("weather", new_plugin (keyword_class "weather" "W: ") true);
               ("reminders", new_plugin (keyword_class "remind" "A: ") false)]
              "tasks" (new_plugin (keyword_class "remind me" "B: ") true)
              [("notes", new_plugin (keyword_class "remind" "C: ") true)])
    as [Hanswer _].
  - reflexivity.
  - reflexivity.
  - reflexivity.
  - constructor; [intros _; reflexivity|].
    constructor; [intros Hon; discriminate Hon|]. constructor.
  - constructor. split; reflexivity.
  - vm_compute in Hanswer. discriminate Hanswer.
Qed.

(** C3 fails on the code: the caller's "timestamp" and "user_input"
    entries reach [execute] in place of the orchestrator's. *)
Lemma caller_keys_reach_execute :
  ~ (forall k c,
       Execute k "remind me to call" c
         ∈ calls (process_input "remind me to call" (Some spoofed_context)
                    (example_world (two_claimants true))).2 ->
       c !! "timestamp" = Some (PyStr (example_clock 0)) /\
       c !! "user_input" = Some (PyStr "remind me to call")).
Proof.
  intros Hreserved.
  destruct (Hreserved "reminders"
              (enhanced_context "T+0" "remind me to call" (Some spoofed_context)))
    as [Hts _].
  - assert (calls (process_input "remind me to call" (Some spoofed_context)
                     (example_world (two_claimants true))).2 =
            [ CanHandle "weather" "remind me to call";
              CanHandle "reminders" "remind me to call";
              Execute "reminders" "remind me to call"
                (enhanced_context "T+0" "remind me to call"
                   (Some spoofed_context)) ]) as ->
      by (vm_compute; reflexivity).
    apply list_elem_of_further, list_elem_of_further, list_elem_of_here.
  - vm_compute in Hts. discriminate Hts.
Qed.



Lemma history_holds_the_50_most_recent_witness :
  length (conversation_history
            (process_all sixty_requests (example_world (two_claimants true))).2) = 50 /\
  exists es,
    user <$> es = sixty_requests.*1 /\
    conversation_history
      (process_all sixty_requests (example_world (two_claimants true))).2 =
      last_n 50 es.
Proof.
  destruct (history_holds_the_50_most_recent
              sixty_requests (example_world (two_claimants true)))
    as [(es & Hus & _ & Hlast & Hlen) _].
  - reflexivity.
  - vm_compute. reflexivity.
  - vm_compute. lia.
  - split; [exact Hlen | exists es; split; [exact Hus | exact Hlast]].
Defined.

Lemma unclaimed_input_goes_to_get_response_witness :
  (process_input "tell me a joke" None
     (example_world (two_claimants true))).1 =
  Ok "I understand you said: 'tell me a joke'. I'm still learning how to help you better!".
Proof.
  destruct (unclaimed_input_goes_to_get_response
              "tell me a joke" None (example_world (two_claimants true)))
    as (_ & Hanswer & _).
  - reflexivity.
  - repeat constructor.
  - exact Hanswer.
Defined.

(** C6 fails on the code: no enabled plugin claims the input, yet the
    answer is the disabled plugin's and [get_response] is not called. *)
Lemma disabled_claimant_preempts_get_response :
  ~ ((forall k p,
        (k, p) ∈ plugins (example_world one_disabled_claimant) ->
        is_enabled p = true ->
        ~ claims "remind me to call" (k, p)) ->
     (process_input "remind me to call" None
        (example_world one_disabled_claimant)).1 =
       Ok (echo "remind me to call") /\
     exists c,
       GetResponse "remind me to call" c
         ∈ calls (process_input "remind me to call" None
                    (example_world one_disabled_claimant)).2).
Proof.
  intros Hfallback. destruct Hfallback as [Hanswer _].
  - intros k p Hin Hon Hclaims.
    apply elem_of_cons in Hin as [Hin|Hin].
    + injection Hin as -> ->. vm_compute in Hclaims. discriminate Hclaims.
    + apply list_elem_of_singleton in Hin. injection Hin as -> ->.
      discriminate Hon.
  - vm_compute in Hanswer. discriminate Hanswer.
Qed.


Lemma uninitialized_get_response_witness :
  get_response "tell me a joke" (enhanced_context "T+0" "tell me a joke" None)
    uninitialized_world =
  (Ok "I'm not properly initialized yet. Please check the configuration.",
   uninitialized_world).
Proof.
  apply (uninitialized_get_response uninitialized_world). reflexivity.
Defined.

(** The same through [process_input], when no plugin claims the input. *)
Lemma uninitialized_fallback_records_nothing :
  (process_input "tell me a joke" None uninitialized_world).1 =
    Ok "I'm not properly initialized yet. Please check the configuration." /\
  conversation_history (process_input "tell me a joke" None uninitialized_world).2 = [].
Proof. split; reflexivity. Qed.

(** ** What one call does to the whole world *)

Section Calls.
Context {S : Type}.
Implicit Types w : world S.
Implicit Types ctx : option context.

(** The three ways a call of [process_input] can go, with everything it
    leaves behind. *)
Lemma process_input_cases user_input ctx w :
  let enhanced := enhanced_context (isoformat w (clock w)) user_input ctx in
  let recorded response :=
    last_n 50 (conversation_history w ++
               [{| timestamp := isoformat w (Datatypes.S (clock w));
                   user := user_input; assistant := response |}]) in
  let r := (process_input user_input ctx w).1 in
  let w' := (process_input user_input ctx w).2 in
  isoformat w' = isoformat w /\
  _initialized w' = _initialized w /\
  ((Forall (declines user_input) (plugins w) /\
    plugins w' = plugins w /\
    calls w' = calls w ++ scan_log user_input (plugins w) ++
               [GetResponse user_input enhanced] /\
    if _initialized w then
      r = Ok (echo user_input) /\
      clock w' = 2 + clock w /\
      conversation_history w' = recorded (echo user_input)
    else
      r = Ok "I'm not properly initialized yet. Please check the configuration." /\
      clock w' = 1 + clock w /\
      conversation_history w' = conversation_history w) \/
   (exists pre k p post,
      plugins w = pre ++ (k, p) :: post /\
      Forall (declines user_input) pre /\
      claims user_input (k, p) /\
      plugins w' =
        dict_set (plugins w) k
          {| cls := cls p;
             self := (execute (cls p) (self p) user_input enhanced).2 |} /\
      calls w' = calls w ++ scan_log user_input pre ++
                 [CanHandle k user_input; Execute k user_input enhanced] /\
      match (execute (cls p) (self p) user_input enhanced).1 with
      | Ok response =>
          r = Ok response /\
          clock w' = 2 + clock w /\
          conversation_history w' = recorded response
      | Raise e =>
          r = (if is_Exception e then Ok (apology e) else Raise e) /\
          clock w' = 1 + clock w /\
          conversation_history w' = conversation_history w
      end) \/
   (exists pre k p post e,
      plugins w = pre ++ (k, p) :: post /\
      Forall (declines user_input) pre /\
      can_handle (cls p) (self p) user_input = Raise e /\
      plugins w' = plugins w /\
      calls w' = calls w ++ scan_log user_input (pre ++ [(k, p)]) /\
      r = (if is_Exception e then Ok (apology e) else Raise e) /\
      clock w' = 1 + clock w /\
      conversation_history w' = conversation_history w)).
Proof.
  intros enhanced recorded. cbv zeta. rewrite process_input_eq.
  destruct (scan_cases (plugins w) user_input)
    as [Hall|(pre & k & p & post & Hreg & Hpre & [Hclaim|[e He]])].
  - rewrite unclaimed_run by done. fold enhanced. rewrite get_response_eq.
    cbn [_initialized record_calls tick].
    destruct (_initialized w) eqn:Hinit; cbn.
    + split; [done|]. split; [done|]. left. done.
    + split; [done|]. split; [done|]. left. done.
  - rewrite (claimed_run _ _ _ _ _ _ _ Hreg Hpre Hclaim). cbv zeta.
    fold enhanced.
    destruct (execute (cls p) (self p) user_input enhanced)
      as [[response|e] self'] eqn:Hexec; cbn.
    + split; [done|]. split; [done|]. right. left.
      exists pre, k, p, post. rewrite Hexec. done.
    + destruct (is_Exception e) eqn:Hcatch; cbn.
      * split; [done|]. split; [done|]. right. left.
        exists pre, k, p, post. rewrite Hexec. cbn. rewrite Hcatch. done.
      * split; [done|]. split; [done|]. right. left.
        exists pre, k, p, post. rewrite Hexec. cbn. rewrite Hcatch. done.
  - rewrite (faulted_run _ _ _ _ _ _ _ _ Hreg Hpre He).
    destruct (is_Exception e) eqn:Hcatch; cbn.
    + split; [done|]. split; [done|]. right. right.
      exists pre, k, p, post, e. rewrite Hcatch. done.
    + split; [done|]. split; [done|]. right. right.
      exists pre, k, p, post, e. rewrite Hcatch. done.
Qed.

(** X1: no call adds, removes, renames or reorders a registry entry. *)
Theorem process_input_keeps_registry_names user_input ctx w :
  keys (plugins (process_input user_input ctx w).2) = keys (plugins w) /\
  length (plugins (process_input user_input ctx w).2) = length (plugins w).
Proof.
  assert (Hkeys : keys (plugins (process_input user_input ctx w).2) =
                  keys (plugins w)).
  { destruct (process_input_cases user_input ctx w)
      as (_ & _ & [(_ & -> & _)|[(pre & k & p & post & Hreg & _ & _ & -> & _)
                                |(pre & k & p & post & e & _ & _ & _ & -> & _)]]);
      try done.
    apply keys_dict_set_present. rewrite Hreg. unfold keys.
    rewrite fmap_app, fmap_cons. set_solver. }
  split; [done|].
  rewrite <- (length_fmap fst (plugins _)), <- (length_fmap fst (plugins w)).
  unfold keys in Hkeys. by rewrite Hkeys.
Qed.

Lemma scan_log_asks_only user_input (entries : list (string * BasePlugin S)) :
  List.filter is_dispatch (scan_log user_input entries) = [] /\
  forall e, e ∈ scan_log user_input entries ->
            exists k, e = CanHandle k user_input /\ k ∈ keys entries.
Proof.
  unfold scan_log, keys. induction entries as [|[k p] rest [IHf IHe]].
  - split; [done|]. intros e He. by apply elem_of_nil in He.
  - rewrite !fmap_cons. cbn [List.filter is_dispatch fst]. split; [exact IHf|].
    intros e He. apply elem_of_cons in He as [->|He].
    + exists k. split; [done|]. apply list_elem_of_here.
    + destruct (IHe e He) as (k' & -> & Hk'). exists k'. split; [done|].
      by apply list_elem_of_further.
Qed.

(** X2: one call hands the input over at most once: it calls [execute]
    of at most one plugin or [get_response], never both and never twice.
    The plugin whose [execute] is called is a registry entry whose
    [can_handle] returned true for this input after that of every entry
    before it returned false; [get_response] is called only when
    [can_handle] of every entry returned false. Both receive the input and
    the enhanced context of this call, and [can_handle] is asked of
    registered names only. *)
Theorem process_input_dispatches_at_most_once user_input ctx w :
  let enhanced := enhanced_context (isoformat w (clock w)) user_input ctx in
  exists new_calls,
    calls (process_input user_input ctx w).2 = calls w ++ new_calls /\
    length (List.filter is_dispatch new_calls) <= 1 /\
    (forall k u c,
       Execute k u c ∈ new_calls ->
       u = user_input /\ c = enhanced /\
       exists pre p post,
         plugins w = pre ++ (k, p) :: post /\
         Forall (declines user_input) pre /\
         claims user_input (k, p)) /\
    (forall u c,
       GetResponse u c ∈ new_calls ->
       u = user_input /\ c = enhanced /\
       Forall (declines user_input) (plugins w)) /\
    (forall k u,
       CanHandle k u ∈ new_calls -> u = user_input /\ k ∈ keys (plugins w)).
Proof.
  intros enhanced.
  assert (Hasked : forall (entries : list (string * BasePlugin S)) k u,
            CanHandle k u ∈ scan_log user_input entries ->
            u = user_input /\ k ∈ keys entries).
  { intros entries k u Hin.
    destruct (scan_log_asks_only user_input entries) as [_ Hscan].
    destruct (Hscan _ Hin) as (k' & [= -> ->] & Hk'). done. }
  assert (Hnone : forall (entries : list (string * BasePlugin S)) e,
            e ∈ scan_log user_input entries -> is_dispatch e = false).
  { intros entries e Hin.
    destruct (scan_log_asks_only user_input entries) as [_ Hscan].
    by destruct (Hscan _ Hin) as (k' & -> & _). }
  destruct (process_input_cases user_input ctx w)
    as (_ & _ & [(Hall & _ & Hcalls & _)
                |[(pre & k & p & post & Hreg & Hpre & Hclaim & _ & Hcalls & _)
                 |(pre & k & p & post & e & Hreg & _ & _ & _ & Hcalls & _)]]);
    fold enhanced in Hcalls; eexists; (split; [exact Hcalls|]).
  - rewrite List.filter_app, (proj1 (scan_log_asks_only _ _)). split_and!.
    + cbn. lia.
    + intros k' u c Hin. apply elem_of_app in Hin as [Hin|Hin].
      * by apply Hnone in Hin.
      * apply list_elem_of_singleton in Hin. discriminate Hin.
    + intros u c Hin. apply elem_of_app in Hin as [Hin|Hin].
      * by apply Hnone in Hin.
      * apply list_elem_of_singleton in Hin. by injection Hin as -> ->.
    + intros k' u Hin. apply elem_of_app in Hin as [Hin|Hin].
      * by apply Hasked in Hin.
      * apply list_elem_of_singleton in Hin. discriminate Hin.
  - rewrite List.filter_app, (proj1 (scan_log_asks_only _ _)). split_and!.
    + cbn. lia.
    + intros k' u c Hin. apply elem_of_app in Hin as [Hin|Hin].
      * by apply Hnone in Hin.
      * apply elem_of_cons in Hin as [Hin|Hin]; [discriminate Hin|].
        apply list_elem_of_singleton in Hin. injection Hin as -> -> ->.
        split; [done|]. split; [done|]. by exists pre, p, post.
    + intros u c Hin. apply elem_of_app in Hin as [Hin|Hin].
      * by apply Hnone in Hin.
      * apply elem_of_cons in Hin as [Hin|Hin]; [discriminate Hin|].
        apply list_elem_of_singleton in Hin. discriminate Hin.
    + intros k' u Hin. apply elem_of_app in Hin as [Hin|Hin].
      * apply Hasked in Hin as [-> Hin]. split; [done|].
        rewrite Hreg. unfold keys in *. rewrite fmap_app.
        apply elem_of_app. by left.
      * apply elem_of_cons in Hin as [Hin|Hin].
        -- injection Hin as -> ->. split; [done|].
           rewrite Hreg. unfold keys. rewrite fmap_app, fmap_cons.
           apply elem_of_app. right. apply list_elem_of_here.
        -- apply list_elem_of_singleton in Hin. discriminate Hin.
  - rewrite (proj1 (scan_log_asks_only _ _)). split_and!.
    + cbn. lia.
    + intros k' u c Hin. by apply Hnone in Hin.
    + intros u c Hin. by apply Hnone in Hin.
    + intros k' u Hin. apply Hasked in Hin as [-> Hin]. split; [done|].
      rewrite Hreg. unfold keys in *. rewrite !fmap_app in *.
      apply elem_of_app in Hin as [Hin|Hin]; apply elem_of_app; [by left|right].
      rewrite fmap_cons. apply list_elem_of_singleton in Hin as ->.
      apply list_elem_of_here.
Qed.

Lemma last_last_n {A} (n : nat) (l : list A) (x : A) :
  0 < n -> last (last_n n (l ++ [x])) = Some x.
Proof.
  intros Hn. unfold last_n. rewrite length_app. simpl.
  rewrite drop_app_le by lia. apply last_snoc.
Qed.

(** X3: after a call that did not end in the [except] branch, on an
    initialized assistant, the status reports an active conversation whose
    last interaction is the timestamp of the exchange the call recorded
    last in the history: a reading of the clock taken during the call and
    after the one that gave the request timestamp of the context. *)
Theorem status_after_successful_call user_input ctx w response w' :
  _initialized w = true ->
  process_input_body user_input ctx w = (Ok response, w') ->
  exists n,
    clock w < n /\ n < clock w' /\
    last (conversation_history w') =
      Some {| timestamp := isoformat w n;
              user := user_input; assistant := response |} /\
    conversation_active (get_status w') = true /\
    last_interaction (get_status w') = Some (isoformat w n).
Proof.
  intros Hinit Hbody.
  pose proof (process_input_cases user_input ctx w) as Hcases.
  rewrite process_input_eq, Hbody in Hcases. cbn [fst snd] in Hcases.
  assert (Hrec : conversation_history w' =
                 last_n 50 (conversation_history w ++
                   [{| timestamp := isoformat w (Datatypes.S (clock w));
                       user := user_input; assistant := response |}]) /\
                 clock w' = 2 + clock w).
  { destruct Hcases
      as (_ & _ & [(_ & _ & _ & Hfb)
                  |[(pre & k & p & post & Hreg & Hpre & Hclaim & _ & _ & Hex)
                   |(pre & k & p & post & e & Hreg & Hpre & He & _)]]).
    - rewrite Hinit in Hfb. destruct Hfb as ([= <-] & Hclock & Hhist). done.
    - rewrite (claimed_run _ _ _ _ _ _ _ Hreg Hpre Hclaim) in Hbody.
      destruct (execute _ _ _ _).1 as [r|e]; [|discriminate Hbody].
      destruct Hex as ([= <-] & Hclock & Hhist). done.
    - rewrite (faulted_run _ _ _ _ _ _ _ _ Hreg Hpre He) in Hbody.
      discriminate Hbody. }
  destruct Hrec as [Hhist Hclock].
  assert (Hlast : last (conversation_history w') =
                  Some {| timestamp := isoformat w (Datatypes.S (clock w));
                          user := user_input; assistant := response |}).
  { rewrite Hhist. apply last_last_n. lia. }
  exists (Datatypes.S (clock w)). split; [lia|]. split; [lia|].
  split; [exact Hlast|].
  unfold get_status, is_active, get_last_interaction_time. cbn.
  destruct (conversation_history w') as [|ex h]; [discriminate Hlast|].
  rewrite Hlast. cbn. done.
Qed.

(** One call keeps the timestamps in order. *)
Lemma process_input_stamps_in_order user_input ctx w :
  stamps_in_order w -> stamps_in_order (process_input user_input ctx w).2.
Proof.
  intros (ns & Hts & Hsorted & Hpast).
  assert (Hsame : forall w1 : world S,
            isoformat w1 = isoformat w ->
            conversation_history w1 = conversation_history w ->
            clock w1 = 1 + clock w -> stamps_in_order w1).
  { intros w1 Hiso Hh Hc. exists ns. rewrite Hiso, Hh, Hc.
    split_and!; [done|done|]. eapply Forall_impl; [exact Hpast|]. simpl. lia. }
  assert (Hmore : forall (w1 : world S) r,
            isoformat w1 = isoformat w ->
            conversation_history w1 =
              last_n 50 (conversation_history w ++
                [{| timestamp := isoformat w (Datatypes.S (clock w));
                    user := user_input; assistant := r |}]) ->
            clock w1 = 2 + clock w -> stamps_in_order w1).
  { intros w1 r Hiso Hh Hc.
    exists (last_n 50 (ns ++ [Datatypes.S (clock w)])).
    assert (Hlen : length (conversation_history w) = length ns).
    { rewrite <- (length_fmap timestamp), Hts, length_fmap. done. }
    rewrite Hiso, Hh, Hc. unfold last_n.
    rewrite !fmap_drop, !fmap_app, Hts, !length_app, Hlen.
    split_and!; [done| |].
    - assert (Hall : StronglySorted lt (ns ++ [Datatypes.S (clock w)])).
      { apply StronglySorted_app_2; [|done|repeat constructor].
        intros x y Hx Hy. apply list_elem_of_singleton in Hy as ->.
        rewrite Forall_forall in Hpast. specialize (Hpast x Hx). simpl in Hpast.
        lia. }
      rewrite <- (take_drop (length ns + length [Datatypes.S (clock w)] - 50)
                    (ns ++ [Datatypes.S (clock w)])) in Hall.
      by apply StronglySorted_app_1_r in Hall.
    - apply Forall_drop, Forall_app. split.
      + eapply Forall_impl; [exact Hpast|]. simpl. lia.
      + constructor; [lia|constructor]. }
  destruct (process_input_cases user_input ctx w)
    as (Hiso & _ & [(_ & _ & _ & Hfb)
                   |[(pre & k & p & post & _ & _ & _ & _ & _ & Hex)
                    |(pre & k & p & post & e & _ & _ & _ & _ & _ & _ & Hc & Hh)]]).
  - destruct (_initialized w).
    + destruct Hfb as (_ & Hc & Hh). by eapply Hmore.
    + destruct Hfb as (_ & Hc & Hh). by apply Hsame.
  - destruct (execute _ _ _ _).1 as [r|e].
    + destruct Hex as (_ & Hc & Hh). by eapply Hmore.
    + destruct Hex as (_ & Hc & Hh). by apply Hsame.
  - by apply Hsame.
Qed.

(** X4: the timestamps of the history are clock readings taken in the
    order of the list; the calls of any run keep it so, and whenever later
    readings of the clock are related to earlier ones by [R], the history's
    timestamps are sorted by [R]. *)
Theorem timestamps_stay_in_order (requests : list (string * option context)) w :
  stamps_in_order w ->
  stamps_in_order (process_all requests w).2 /\
  forall R : relation string,
    (forall m n, m < n -> R (isoformat w m) (isoformat w n)) ->
    StronglySorted R
      (timestamp <$> conversation_history (process_all requests w).2).
Proof.
  intros Hw.
  assert (Hrun : stamps_in_order (process_all requests w).2 /\
                 isoformat (process_all requests w).2 = isoformat w).
  { revert w Hw. induction requests as [|[user_input ctx] rest IH]; intros w Hw.
    - done.
    - simpl.
      pose proof (process_input_stamps_in_order user_input ctx w Hw) as H1.
      destruct (process_input_cases user_input ctx w) as (Hiso & _).
      destruct (process_input user_input ctx w) as [r w1]. cbn [fst snd] in *.
      destruct (IH w1 H1) as [H2 Hiso2].
      destruct (process_all rest w1) as [rs w2]. cbn [fst snd] in *.
      split; [done|]. congruence. }
  destruct Hrun as [Hord Hiso]. split; [exact Hord|].
  intros R HR. destruct Hord as (ns & -> & Hsorted & _). rewrite Hiso.
  eapply StronglySorted_fmap; [|exact Hsorted]. exact HR.
Qed.

End Calls.

(** ** More on the loader *)

Section Loading.
Context {S : Type}.
Implicit Types w : world S.
Implicit Types ms : list (string * class_obj S).

Lemma set_plugins_id w : set_plugins (fun d => d) w = w.
Proof. by destruct w. Qed.

(** Loading the members of a module whose own plugin classes all
    construct. *)
Lemma load_members_all_ok file_stem module_name ms w :
  Forall (fun c => exists i,
            init c (default ∅ (config_plugins w !! file_stem)) = Ok i)
         (own_classes module_name ms) ->
  load_members file_stem module_name ms w =
  (Ok tt,
   set_plugins
     (register_all file_stem (default ∅ (config_plugins w !! file_stem))
        (own_classes module_name ms)) w).
Proof.
  revert w. induction ms as [|[name obj] rest IH]; intros w Hok.
  - cbn. by rewrite set_plugins_id.
  - destruct obj as [|defined_in c|]; cbn [load_members].
    + rewrite (IH w Hok). reflexivity.
    + unfold own_classes in Hok |- *. cbn [omap list_omap snd] in Hok |- *.
      destruct (String.eqb defined_in module_name) eqn:Hmod.
      * apply Forall_cons in Hok as [[i Hi] Hok].
        unfold bind at 1, get. cbn [fst snd]. unfold bind at 1. rewrite Hi.
        unfold bind at 1, modify. rewrite IH by exact Hok.
        unfold register_all. cbn [foldl config_plugins set_plugins].
        rewrite Hi. reflexivity.
      * rewrite (IH w Hok). reflexivity.
    + rewrite (IH w Hok). reflexivity.
Qed.

Lemma register_all_snoc file_stem config (cs : list (plugin_class S)) c d :
  register_all file_stem config (cs ++ [c]) d =
  match init c config with
  | Ok i => dict_set (register_all file_stem config cs d) file_stem
              {| cls := c; self := i |}
  | Raise _ => register_all file_stem config cs d
  end.
Proof. unfold register_all. by rewrite foldl_app. Qed.

Lemma elem_of_keys_dict_set (d : list (string * BasePlugin S)) k v k' :
  k' ∈ keys (dict_set d k v) <-> k' = k \/ k' ∈ keys d.
Proof.
  destruct (decide (k ∈ keys d)) as [Hin|Hnotin].
  - rewrite keys_dict_set_present by done.
    split; [by right | by intros [->|?]].
  - rewrite keys_dict_set_fresh by done. unfold keys.
    rewrite fmap_app, elem_of_app. cbn. rewrite list_elem_of_singleton.
    split; intros [?|?]; auto.
Qed.

Lemma elem_of_keys_register_all file_stem config (cs : list (plugin_class S)) d k :
  k ∈ keys (register_all file_stem config cs d) ->
  k ∈ keys d \/ (k = file_stem /\ cs ≠ []).
Proof.
  revert d. induction cs as [|c cs IH]; intros d; cbn; [by left|].
  intros Hk. apply IH in Hk as [Hk|[-> _]]; [|by right].
  destruct (init c config); [|by left].
  apply elem_of_keys_dict_set in Hk as [->|Hk]; [by right|by left].
Qed.

Lemma keys_register_all_mono file_stem config (cs : list (plugin_class S)) d k :
  k ∈ keys d -> k ∈ keys (register_all file_stem config cs d).
Proof.
  revert d. induction cs as [|c cs IH]; intros d Hk; cbn; [done|].
  apply IH. destruct (init c config); [|done].
  apply elem_of_keys_dict_set. by right.
Qed.

(** X5: loading a plugin file whose own plugin classes all construct
    returns normally, and [get_plugin] under the file's stem then gives an
    instance of the last of those classes, built from the file's entry in
    the configuration (or from the empty dict when there is none). *)
Theorem loaded_file_is_found_by_its_stem (f : plugin_file S) ms cs c w :
  members f = Ok ms ->
  own_classes ("src.plugins." +:+ stem f) ms = cs ++ [c] ->
  Forall (fun c => exists i,
            init c (default ∅ (config_plugins w !! stem f)) = Ok i)
         (cs ++ [c]) ->
  (_load_plugin_from_file f w).1 = Ok tt /\
  exists i,
    init c (default ∅ (config_plugins w !! stem f)) = Ok i /\
    (get_plugin (stem f) (_load_plugin_from_file f w).2).1 =
      Ok {| cls := c; self := i |}.
Proof.
  intros Hms Hown Hok.
  assert (Hrun : _load_plugin_from_file f w =
            (Ok tt,
             set_plugins
               (register_all (stem f) (default ∅ (config_plugins w !! stem f))
                  (cs ++ [c])) w)).
  { unfold _load_plugin_from_file, try_except, bind at 1. rewrite Hms.
    rewrite load_members_all_ok by (rewrite Hown; exact Hok).
    rewrite Hown. reflexivity. }
  rewrite Hrun. split; [done|].
  apply Forall_app in Hok as [_ Hc]. apply Forall_singleton in Hc as [i Hi].
  exists i. split; [done|].
  unfold get_plugin, bind, get. cbn [fst snd plugins set_plugins].
  rewrite register_all_snoc, Hi, dict_get_set_eq. reflexivity.
Qed.

(** X6: a module that defines no plugin class of its own (only
    [BasePlugin] itself, other classes, or plugin classes imported from
    another module) loads without an error and without any change. *)
Theorem module_without_own_plugin_registers_nothing (f : plugin_file S) ms w :
  members f = Ok ms ->
  own_classes ("src.plugins." +:+ stem f) ms = [] ->
  _load_plugin_from_file f w = (Ok tt, w).
Proof.
  intros Hms Hown.
  unfold _load_plugin_from_file, try_except, bind at 1. rewrite Hms.
  rewrite load_members_all_ok by (rewrite Hown; constructor).
  rewrite Hown. cbn. by rewrite set_plugins_id.
Qed.

(** What the loop of [_load_plugin_from_file] leaves behind in general:
    the instances of the own classes up to the first whose constructor
    raises. *)
Lemma load_members_general file_stem module_name ms w :
  exists cs,
    Forall (fun c => exists i,
              init c (default ∅ (config_plugins w !! file_stem)) = Ok i) cs /\
    (load_members file_stem module_name ms w).2 =
      set_plugins
        (register_all file_stem (default ∅ (config_plugins w !! file_stem)) cs) w /\
    match (load_members file_stem module_name ms w).1 with
    | Ok _ => own_classes module_name ms = cs
    | Raise e =>
        exists c rest,
          own_classes module_name ms = cs ++ c :: rest /\
          init c (default ∅ (config_plugins w !! file_stem)) = Raise e
    end.
Proof.
  revert w. induction ms as [|[name obj] rest IH]; intros w.
  - exists []. cbn. by rewrite set_plugins_id.
  - destruct obj as [|defined_in c|]; [apply IH| |apply IH].
    destruct (String.eqb defined_in module_name) eqn:Hmod.
    + apply String.eqb_eq in Hmod as ->. rewrite load_members_subclass.
      assert (Hown : own_classes module_name
                       ((name, PluginSubclass module_name c) :: rest) =
                     c :: own_classes module_name rest).
      { unfold own_classes. cbn [omap list_omap snd].
        by rewrite String.eqb_refl. }
      rewrite Hown.
      destruct (init c (default ∅ (config_plugins w !! file_stem)))
        as [i|e] eqn:Hi.
      * destruct (IH (set_plugins
                       (fun d => dict_set d file_stem {| cls := c; self := i |}) w))
          as (cs & Hcs & Hstate & Hres).
        cbn [config_plugins set_plugins] in Hcs, Hstate, Hres.
        exists (c :: cs). split; [constructor; eauto|]. split.
        -- rewrite Hstate. unfold register_all. cbn [foldl]. rewrite Hi.
           reflexivity.
        -- destruct (load_members _ _ rest _).1 as [[]|e].
           ++ by rewrite Hres.
           ++ destruct Hres as (c' & rest' & Hown' & Hc').
              exists c', rest'. by rewrite Hown'.
      * exists []. cbn. rewrite set_plugins_id.
        split; [constructor|]. split; [done|]. eauto.
    + assert (Hskip : load_members file_stem module_name
                        ((name, PluginSubclass defined_in c) :: rest) w =
                      load_members file_stem module_name rest w).
      { cbn [load_members]. by rewrite Hmod. }
      assert (Hown : own_classes module_name
                       ((name, PluginSubclass defined_in c) :: rest) =
                     own_classes module_name rest).
      { unfold own_classes. cbn [omap list_omap snd]. by rewrite Hmod. }
      rewrite Hskip, Hown. apply IH.
Qed.





(** Loading changes nothing but the registry. *)
Lemma _load_plugin_from_file_frame (f : plugin_file S) w :
  exists cs,
    (_load_plugin_from_file f w).2 =
      set_plugins
        (register_all (stem f) (default ∅ (config_plugins w !! stem f)) cs) w /\
    (cs ≠ [] ->
     exists ms c, members f = Ok ms /\
                  c ∈ own_classes ("src.plugins." +:+ stem f) ms).
Proof.
  rewrite _load_plugin_from_file_eq.
  destruct (members f) as [ms|e0] eqn:Hms.
  - destruct (load_members_general (stem f) ("src.plugins." +:+ stem f) ms w)
      as (cs & _ & Hstate & Hres).
    exists cs. split.
    + destruct (load_members _ _ ms w) as [[[]|e1] w']; exact Hstate.
    + intros Hne. destruct cs as [|c cs]; [done|]. exists ms, c. split; [done|].
      destruct (load_members _ _ ms w).1.
      * rewrite Hres. apply list_elem_of_here.
      * destruct Hres as (c' & rest & -> & _). apply list_elem_of_here.
  - exists []. cbn. by rewrite set_plugins_id.
Qed.

Lemma load_files_frame (fs : list (plugin_file S)) w :
  (load_files fs w).2 = set_plugins (fun _ => plugins (load_files fs w).2) w /\
  (forall k, k ∈ keys (plugins w) -> k ∈ keys (plugins (load_files fs w).2)) /\
  (forall k,
     k ∈ keys (plugins (load_files fs w).2) ->
     k ∈ keys (plugins w) \/
     exists f ms c,
       f ∈ fs /\ stem f = k /\
       String.prefix "__" (stem f +:+ ".py") = false /\
       members f = Ok ms /\
       c ∈ own_classes ("src.plugins." +:+ k) ms).
Proof.
  revert w. induction fs as [|f rest IH]; intros w.
  - cbn. split; [by destruct w|]. split; [done|]. intros k Hk. by left.
  - rewrite load_files_cons.
    destruct (String.prefix "__" (stem f +:+ ".py")) eqn:Hdunder.
    + destruct (IH w) as (Hframe & Hmono & Hprov). split; [done|]. split; [done|].
      intros k Hk. apply Hprov in Hk as [Hk|(f' & ms & c & Hin & Hrest)];
        [by left|right].
      exists f', ms, c. split; [by apply list_elem_of_further|done].
    + destruct (_load_plugin_from_file_frame f w) as (cs & Hstate & Hcs).
      set (w1 := set_plugins
                   (register_all (stem f)
                      (default ∅ (config_plugins w !! stem f)) cs) w) in *.
      assert (Hhere : forall k,
                k ∈ keys (plugins w1) ->
                k ∈ keys (plugins w) \/
                exists f' ms c,
                  f' ∈ f :: rest /\ stem f' = k /\
                  String.prefix "__" (stem f' +:+ ".py") = false /\
                  members f' = Ok ms /\
                  c ∈ own_classes ("src.plugins." +:+ k) ms).
      { intros k Hk.
        apply elem_of_keys_register_all in Hk as [Hk|[-> Hne]]; [by left|].
        right. destruct (Hcs Hne) as (ms & c & Hms & Hc).
        exists f, ms, c. split; [apply list_elem_of_here|done]. }
      assert (Hrest :
                (load_files rest w1).2 =
                  set_plugins (fun _ => plugins (load_files rest w1).2) w /\
                (forall k, k ∈ keys (plugins w) ->
                           k ∈ keys (plugins (load_files rest w1).2)) /\
                (forall k,
                   k ∈ keys (plugins (load_files rest w1).2) ->
                   k ∈ keys (plugins w) \/
                   exists f' ms c,
                     f' ∈ f :: rest /\ stem f' = k /\
                     String.prefix "__" (stem f' +:+ ".py") = false /\
                     members f' = Ok ms /\
                     c ∈ own_classes ("src.plugins." +:+ k) ms)).
      { destruct (IH w1) as (Hframe & Hmono & Hprov). split_and!.
        - rewrite Hframe at 1. reflexivity.
        - intros k Hk. apply Hmono. by apply keys_register_all_mono.
        - intros k Hk. apply Hprov in Hk as [Hk|(f' & ms & c & Hin & Hrest)].
          + by apply Hhere.
          + right. exists f', ms, c. split; [by apply list_elem_of_further|done]. }
      destruct (_load_plugin_from_file f w) as [[[]|e] w']; cbn [snd] in Hstate;
        subst w'; [done|].
      destruct (is_Exception e); [done|]. cbn [snd]. split_and!.
      * reflexivity.
      * intros k Hk. by apply keys_register_all_mono.
      * exact Hhere.
Qed.

(** X9: [load_plugins] only ever adds names to the registry, and every
    name it adds is the stem of a file of the plugin directory whose name
    does not start with two underscores, that imported, and that defines a
    plugin class of its own; without a plugin directory nothing changes. *)
Theorem registered_names_come_from_plugin_files w :
  (forall k, k ∈ keys (plugins w) -> k ∈ keys (plugins (load_plugins w).2)) /\
  (forall k,
     k ∈ keys (plugins (load_plugins w).2) ->
     k ∈ keys (plugins w) \/
     exists fs f ms c,
       plugin_directory w = Some fs /\
       f ∈ fs /\ stem f = k /\
       String.prefix "__" (stem f +:+ ".py") = false /\
       members f = Ok ms /\
       c ∈ own_classes ("src.plugins." +:+ k) ms) /\
  (plugin_directory w = None -> load_plugins w = (Ok tt, w)).
Proof.
  unfold load_plugins, bind, get. cbn [fst snd].
  destruct (plugin_directory w) as [fs|] eqn:Hdir.
  - destruct (load_files_frame fs w) as (_ & Hmono & Hprov).
    split; [done|]. split; [|done].
    intros k Hk. apply Hprov in Hk as [Hk|(f & ms & c & Hrest)]; [by left|].
    right. exists fs, f, ms, c. done.
  - split; [done|]. split; [by left|done].
Qed.



(** X11: an assistant constructed without a plugin directory has no
    plugins and answers every input with the echo of [get_response],
    which it records. *)
Theorem assistant_without_plugins_echoes iso t (cfg : gmap string plugin_config)
    user_input ctx :
  let w := (PersonalAssistant (S:=S) None iso t cfg).2 in
  plugins w = [] /\
  (process_input user_input ctx w).1 = Ok (echo user_input) /\
  conversation_history (process_input user_input ctx w).2 =
    [{| timestamp := iso (1 + t); user := user_input;
        assistant := echo user_input |}].
Proof.
  cbv zeta. split_and!; reflexivity.
Qed.

End Loading.

(** ** [TaskPlugin] *)

Section TaskFacts.
Variable py : TaskPlugin.pylib.
Implicit Types tasks : list TaskPlugin.Task.
Implicit Types now user_input : string.

Lemma _add_task_eq now user_input tasks :
  TaskPlugin._add_task py now user_input tasks =
  match TaskPlugin.search_add_task py user_input with
  | None =>
      (Ok "Please provide a task description. Example: 'add task buy groceries'",
       tasks)
  | Some group1 =>
      (Ok ("✅ Added task: " +:+ TaskPlugin.strip py group1),
       tasks ++ [{| TaskPlugin.id := length tasks + 1;
                    TaskPlugin.description := TaskPlugin.strip py group1;
                    TaskPlugin.created := now;
                    TaskPlugin.completed := false;
                    TaskPlugin.completed_at := None |}])
  end.
Proof. unfold TaskPlugin._add_task. by destruct (TaskPlugin.search_add_task _ _). Qed.

Lemma _complete_task_eq now user_input tasks :
  TaskPlugin._complete_task py now user_input tasks =
  match TaskPlugin.search_complete_task py user_input with
  | None => (Ok "Please specify a task ID. Example: 'complete task 1'", tasks)
  | Some group1 =>
      match TaskPlugin.int py group1 with
      | Raise e => (Raise e, tasks)
      | Ok task_id =>
          match TaskPlugin._find_task task_id tasks with
          | None => (Ok ("❌ Task " +:+ pretty task_id +:+ " not found"), tasks)
          | Some task =>
              if TaskPlugin.completed task then
                (Ok ("✅ Task " +:+ pretty task_id +:+ " is already completed"),
                 tasks)
              else
                (Ok ("✅ Completed task: " +:+ TaskPlugin.description task),
                 TaskPlugin.update_found task_id (TaskPlugin.mark_completed now) tasks)
          end
      end
  end.
Proof.
  unfold TaskPlugin._complete_task.
  destruct (TaskPlugin.search_complete_task _ _) as [g|]; [|done].
  unfold bind at 1. destruct (TaskPlugin.int py g) as [k|e]; [|done].
  unfold bind, get. cbn.
  destruct (TaskPlugin._find_task k tasks) as [t|]; [|done].
  by destruct (TaskPlugin.completed t).
Qed.

Lemma _remove_task_eq user_input tasks :
  TaskPlugin._remove_task py user_input tasks =
  match TaskPlugin.search_remove_task py user_input with
  | None => (Ok "Please specify a task ID. Example: 'remove task 1'", tasks)
  | Some group1 =>
      match TaskPlugin.int py group1 with
      | Raise e => (Raise e, tasks)
      | Ok task_id =>
          match TaskPlugin._find_task task_id tasks with
          | None => (Ok ("❌ Task " +:+ pretty task_id +:+ " not found"), tasks)
          | Some task =>
              (Ok ("🗑️ Removed task: " +:+ TaskPlugin.description task),
               TaskPlugin.list_remove task tasks)
          end
      end
  end.
Proof.
  unfold TaskPlugin._remove_task.
  destruct (TaskPlugin.search_remove_task _ _) as [g|]; [|done].
  unfold bind at 1. destruct (TaskPlugin.int py g) as [k|e]; [|done].
  unfold bind, get. cbn.
  by destruct (TaskPlugin._find_task k tasks) as [t|].
Qed.

Lemma _list_tasks_unchanged tasks :
  (TaskPlugin._list_tasks tasks).2 = tasks.
Proof. unfold TaskPlugin._list_tasks, bind, get. by destruct tasks. Qed.

(** X12: an input that [can_handle] turns down is never acted on:
    [execute] answers with the general help and leaves the tasks alone. *)
Theorem task_execute_ignores_unclaimed_input now user_input (ctx : context) tasks :
  TaskPlugin.can_handle py user_input = false ->
  TaskPlugin.execute py now user_input ctx tasks =
    (Ok TaskPlugin._general_task_help, tasks).
Proof.
  unfold TaskPlugin.can_handle. cbn [existsb].
  intros Hno. apply orb_false_elim in Hno as [Htask _].
  unfold TaskPlugin.execute. rewrite Htask, !andb_false_r. reflexivity.
Qed.

(** The ways [execute] can change the task list, each with the command
    it was given. *)
Lemma task_execute_cases now user_input (ctx : context) tasks :
  let r := (TaskPlugin.execute py now user_input ctx tasks).1 in
  let tasks' := (TaskPlugin.execute py now user_input ctx tasks).2 in
  tasks' = tasks \/
  (exists g,
     TaskPlugin.search_add_task py user_input = Some g /\
     r = Ok ("✅ Added task: " +:+ TaskPlugin.strip py g) /\
     tasks' = tasks ++ [{| TaskPlugin.id := length tasks + 1;
                           TaskPlugin.description := TaskPlugin.strip py g;
                           TaskPlugin.created := now;
                           TaskPlugin.completed := false;
                           TaskPlugin.completed_at := None |}]) \/
  (exists g k t,
     TaskPlugin.search_complete_task py user_input = Some g /\
     TaskPlugin.int py g = Ok k /\
     TaskPlugin._find_task k tasks = Some t /\
     TaskPlugin.completed t = false /\
     r = Ok ("✅ Completed task: " +:+ TaskPlugin.description t) /\
     tasks' = TaskPlugin.update_found k (TaskPlugin.mark_completed now) tasks) \/
  (exists g k t,
     TaskPlugin.search_remove_task py user_input = Some g /\
     TaskPlugin.int py g = Ok k /\
     TaskPlugin._find_task k tasks = Some t /\
     r = Ok ("🗑️ Removed task: " +:+ TaskPlugin.description t) /\
     tasks' = TaskPlugin.list_remove t tasks).
Proof.
  cbv zeta. unfold TaskPlugin.execute.
  repeat match goal with |- context [if ?b then _ else _] => destruct b end.
  - rewrite _add_task_eq.
    destruct (TaskPlugin.search_add_task _ _) as [g|]; [|by left].
    right. left. eauto.
  - left. apply _list_tasks_unchanged.
  - rewrite _complete_task_eq.
    destruct (TaskPlugin.search_complete_task _ _) as [g|]; [|by left].
    destruct (TaskPlugin.int py g) as [k|e] eqn:Hint; [|by left].
    destruct (TaskPlugin._find_task k tasks) as [t|] eqn:Hfind; [|by left].
    destruct (TaskPlugin.completed t) eqn:Hdone; [by left|].
    right. right. left. exists g, k, t. done.
  - rewrite _remove_task_eq.
    destruct (TaskPlugin.search_remove_task _ _) as [g|]; [|by left].
    destruct (TaskPlugin.int py g) as [k|e] eqn:Hint; [|by left].
    destruct (TaskPlugin._find_task k tasks) as [t|] eqn:Hfind; [|by left].
    right. right. right. exists g, k, t. done.
  - by left.
Qed.

(** X13: [execute] changes the task list in three ways only, each
    announced by its answer and fixed by the command: a task appended with
    the next number as id and the stripped text after "add task" as
    description; the first task whose id is the number after "complete
    task" marked completed; or the first task whose id is the number
    after "remove task" removed. In every other case, an exception
    included, the list is what it was. *)
Theorem task_execute_effects now user_input (ctx : context) tasks :
  let r := (TaskPlugin.execute py now user_input ctx tasks).1 in
  let tasks' := (TaskPlugin.execute py now user_input ctx tasks).2 in
  (tasks' = tasks \/
   (exists g,
      TaskPlugin.search_add_task py user_input = Some g /\
      r = Ok ("✅ Added task: " +:+ TaskPlugin.strip py g) /\
      tasks' = tasks ++ [{| TaskPlugin.id := length tasks + 1;
                            TaskPlugin.description := TaskPlugin.strip py g;
                            TaskPlugin.created := now;
                            TaskPlugin.completed := false;
                            TaskPlugin.completed_at := None |}]) \/
   (exists g k t,
      TaskPlugin.search_complete_task py user_input = Some g /\
      TaskPlugin.int py g = Ok k /\
      TaskPlugin._find_task k tasks = Some t /\
      TaskPlugin.completed t = false /\
      r = Ok ("✅ Completed task: " +:+ TaskPlugin.description t) /\
      tasks' = TaskPlugin.update_found k (TaskPlugin.mark_completed now) tasks) \/
   (exists g k t,
      TaskPlugin.search_remove_task py user_input = Some g /\
      TaskPlugin.int py g = Ok k /\
      TaskPlugin._find_task k tasks = Some t /\
      r = Ok ("🗑️ Removed task: " +:+ TaskPlugin.description t) /\
      tasks' = TaskPlugin.list_remove t tasks)) /\
  (forall e, r = Raise e -> tasks' = tasks).
Proof.
  cbv zeta. split; [apply task_execute_cases|].
  intros e Hraise.
  destruct (task_execute_cases now user_input ctx tasks)
    as [Hsame|[(g & _ & Hr & _)
              |[(g & k & t & _ & _ & _ & _ & Hr & _)
               |(g & k & t & _ & _ & _ & Hr & _)]]].
  - exact Hsame.
  - rewrite Hr in Hraise. discriminate Hraise.
  - rewrite Hr in Hraise. discriminate Hraise.
  - rewrite Hr in Hraise. discriminate Hraise.
Qed.

Lemma _find_task_Some k tasks t :
  TaskPlugin._find_task k tasks = Some t ->
  exists pre post,
    tasks = pre ++ t :: post /\
    Forall (fun x => TaskPlugin.id x ≠ k) pre /\
    TaskPlugin.id t = k.
Proof.
  induction tasks as [|x tasks IH]; cbn; [done|].
  destruct (decide (TaskPlugin.id x = k)) as [Hx|Hx].
  - intros [= ->]. exists [], tasks. split_and!; [done|constructor|done].
  - intros Hfind. destruct (IH Hfind) as (pre & post & -> & Hpre & Hid).
    exists (x :: pre), post. split_and!; [done|by constructor|done].
Qed.

Lemma _find_task_at k pre t post :
  Forall (fun x => TaskPlugin.id x ≠ k) pre ->
  TaskPlugin.id t = k ->
  TaskPlugin._find_task k (pre ++ t :: post) = Some t.
Proof.
  intros Hpre Hid. induction Hpre as [|x pre Hx _ IH]; cbn.
  - by destruct (decide (TaskPlugin.id t = k)).
  - by destruct (decide (TaskPlugin.id x = k)).
Qed.

Lemma _find_task_None k tasks :
  TaskPlugin._find_task k tasks = None <->
  Forall (fun x => TaskPlugin.id x ≠ k) tasks.
Proof.
  induction tasks as [|x tasks IH]; cbn.
  - split; [constructor|done].
  - destruct (decide (TaskPlugin.id x = k)) as [Hx|Hx].
    + split; [done|]. intros H. apply Forall_cons in H as [H _]. done.
    + rewrite IH. split; [by constructor|]. intros H.
      by apply Forall_cons in H as [_ H].
Qed.

Lemma update_found_at k f pre t post :
  Forall (fun x => TaskPlugin.id x ≠ k) pre ->
  TaskPlugin.id t = k ->
  TaskPlugin.update_found k f (pre ++ t :: post) = pre ++ f t :: post.
Proof.
  intros Hpre Hid. induction Hpre as [|x pre Hx _ IH]; cbn.
  - by destruct (decide (TaskPlugin.id t = k)).
  - destruct (decide (TaskPlugin.id x = k)); [done|]. by rewrite IH.
Qed.

(** [list.remove] compares whole dicts, yet it removes the very task that
    [_find_task] returned: no earlier task has its id. *)
Lemma list_remove_at pre t post :
  Forall (fun x => TaskPlugin.id x ≠ TaskPlugin.id t) pre ->
  TaskPlugin.list_remove t (pre ++ t :: post) = pre ++ post.
Proof.
  intros Hpre. induction Hpre as [|x pre Hx _ IH]; cbn.
  - by destruct (decide (t = t)).
  - destruct (decide (x = t)) as [->|_]; [done|]. by rewrite IH.
Qed.

(** X14: completing a task keeps the length and order of the list and the
    id, description and creation time of every task; a task that was
    already completed keeps its completion time. *)
Theorem task_completion_preserves_the_rest now user_input tasks :
  let tasks' := (TaskPlugin._complete_task py now user_input tasks).2 in
  TaskPlugin.id <$> tasks' = TaskPlugin.id <$> tasks /\
  TaskPlugin.description <$> tasks' = TaskPlugin.description <$> tasks /\
  TaskPlugin.created <$> tasks' = TaskPlugin.created <$> tasks /\
  forall i t,
    tasks !! i = Some t -> TaskPlugin.completed t = true ->
    tasks' !! i = Some t.
Proof.
  cbv zeta. rewrite _complete_task_eq.
  destruct (TaskPlugin.search_complete_task _ _) as [g|]; [|done].
  destruct (TaskPlugin.int py g) as [k|e]; [|done].
  destruct (TaskPlugin._find_task k tasks) as [t|] eqn:Hfind; [|done].
  destruct (TaskPlugin.completed t) eqn:Hdone; [done|]. cbn [snd].
  destruct (_find_task_Some _ _ _ Hfind) as (pre & post & -> & Hpre & Hid).
  rewrite update_found_at by done. rewrite !fmap_app, !fmap_cons.
  split_and!; try done.
  intros i t' Hi Ht'.
  destruct (decide (i < length pre)) as [Hlt|Hge].
  - rewrite lookup_app_l in Hi |- * by done. done.
  - rewrite lookup_app_r in Hi |- * by lia.
    destruct (i - length pre) as [|j]; cbn in Hi |- *; [|done].
    injection Hi as <-. congruence.
Qed.

(** X15: completing is idempotent on the task list: running the same
    command again, at any later time, changes nothing more. After a
    success, which names the description of the first task with the id
    given in the command, that task is found completed under the same id
    and the second run answers that the task with this id is already
    completed. *)
Theorem task_completion_twice now1 now2 user_input tasks :
  let tasks1 := (TaskPlugin._complete_task py now1 user_input tasks).2 in
  (TaskPlugin._complete_task py now2 user_input tasks1).2 = tasks1 /\
  forall d,
    (TaskPlugin._complete_task py now1 user_input tasks).1 =
      Ok ("✅ Completed task: " +:+ d) ->
    exists g k t,
      TaskPlugin.search_complete_task py user_input = Some g /\
      TaskPlugin.int py g = Ok k /\
      TaskPlugin._find_task k tasks = Some t /\
      TaskPlugin.completed t = false /\
      d = TaskPlugin.description t /\
      TaskPlugin._find_task k tasks1 = Some (TaskPlugin.mark_completed now1 t) /\
      (TaskPlugin._complete_task py now2 user_input tasks1).1 =
        Ok ("✅ Task " +:+ pretty k +:+ " is already completed").
Proof.
  cbv zeta. rewrite !_complete_task_eq.
  destruct (TaskPlugin.search_complete_task _ _) as [g|]; [|done].
  destruct (TaskPlugin.int py g) as [k|e] eqn:Hint; [|done].
  destruct (TaskPlugin._find_task k tasks) as [t|] eqn:Hfind.
  - destruct (TaskPlugin.completed t) eqn:Hdone; cbn [fst snd].
    + rewrite Hfind, Hdone. split; [done|]. intros d Hd. discriminate Hd.
    + destruct (_find_task_Some _ _ _ Hfind) as (pre & post & -> & Hpre & Hid).
      rewrite update_found_at by done.
      rewrite (_find_task_at k pre (TaskPlugin.mark_completed now1 t) post)
        by done.
      cbn [TaskPlugin.completed TaskPlugin.mark_completed fst snd].
      split; [done|]. intros d Hd. exists g, k, t.
      split_and!; try done.
      * injection Hd as Hd. symmetry. exact (String.app_inj _ _ _ Hd).
      * by apply _find_task_at.
  - cbn [fst snd]. rewrite Hfind. split; [done|]. intros d Hd.
    discriminate Hd.
Qed.

(** X16: a successful removal deletes exactly the first task with the id
    and nothing else; where ids are unique, the id is then unknown and
    every other id still finds its task. *)
Theorem task_removal_deletes_the_found_task user_input group1 k t tasks :
  TaskPlugin.search_remove_task py user_input = Some group1 ->
  TaskPlugin.int py group1 = Ok k ->
  TaskPlugin._find_task k tasks = Some t ->
  let tasks' := (TaskPlugin._remove_task py user_input tasks).2 in
  (TaskPlugin._remove_task py user_input tasks).1 =
    Ok ("🗑️ Removed task: " +:+ TaskPlugin.description t) /\
  (exists pre post,
     tasks = pre ++ t :: post /\ tasks' = pre ++ post /\
     Forall (fun x => TaskPlugin.id x ≠ k) pre) /\
  length tasks = Datatypes.S (length tasks') /\
  (forall k', k' ≠ k ->
     TaskPlugin._find_task k' tasks' = TaskPlugin._find_task k' tasks) /\
  (NoDup (TaskPlugin.id <$> tasks) -> TaskPlugin._find_task k tasks' = None).
Proof.
  intros Hsearch Hint Hfind. cbv zeta.
  rewrite _remove_task_eq, Hsearch, Hint, Hfind. cbn [fst snd].
  destruct (_find_task_Some _ _ _ Hfind) as (pre & post & -> & Hpre & Hid).
  rewrite list_remove_at by (by rewrite Hid).
  split; [done|]. split; [by exists pre, post|]. split.
  { rewrite !length_app. cbn. lia. }
  split.
  - intros k' Hne. clear Hfind. induction Hpre as [|x pre Hx _ IH]; cbn.
    + destruct (decide (TaskPlugin.id t = k')); [congruence|done].
    + destruct (decide (TaskPlugin.id x = k')); [done|]. exact IH.
  - intros Hnd. apply _find_task_None. rewrite fmap_app, fmap_cons in Hnd.
    apply NoDup_app in Hnd as (_ & _ & Hnd). apply NoDup_cons in Hnd as [Hnot _].
    apply Forall_app. split; [done|]. apply Forall_forall. intros x Hx Hidx.
    apply Hnot. rewrite Hid, <- Hidx. apply list_elem_of_fmap. by exists x.
Qed.

Lemma sequential_lookup tasks i t :
  TaskPlugin.sequential tasks -> tasks !! i = Some t -> TaskPlugin.id t = 1 + i.
Proof.
  unfold TaskPlugin.sequential. intros Hseq Hi.
  assert (Hid : (TaskPlugin.id <$> tasks) !! i = Some (TaskPlugin.id t)).
  { by rewrite list_lookup_fmap, Hi. }
  rewrite Hseq in Hid. apply lookup_seq in Hid as [-> _]. done.
Qed.

(** The first position that holds the id is the one [_find_task] finds. *)
Lemma _find_task_first k tasks j t :
  tasks !! j = Some t ->
  TaskPlugin.id t = k ->
  (forall j' x, j' < j -> tasks !! j' = Some x -> TaskPlugin.id x ≠ k) ->
  TaskPlugin._find_task k tasks = Some t.
Proof.
  intros Hj Hid Hbefore. rewrite <- (take_drop_middle tasks j t Hj).
  apply _find_task_at; [|done]. apply Forall_lookup. intros j' x Hx.
  assert (j' < j).
  { apply lookup_lt_Some in Hx. rewrite length_take in Hx. lia. }
  rewrite lookup_take_lt in Hx by done. by eapply Hbefore.
Qed.

(** X17: while the ids are the positions counted from 1, as they are in a
    list that only [_add_task] has built, [_find_task k] is the k-th task
    (none for 0 or past the end); every command except a successful
    removal keeps the ids that way. *)
Theorem task_ids_are_positions_until_removal now user_input (ctx : context) tasks :
  TaskPlugin.sequential tasks ->
  (forall k,
     TaskPlugin._find_task k tasks =
       match k with 0 => None | Datatypes.S i => tasks !! i end) /\
  ((forall d, (TaskPlugin.execute py now user_input ctx tasks).1 ≠
              Ok ("🗑️ Removed task: " +:+ d)) ->
   TaskPlugin.sequential (TaskPlugin.execute py now user_input ctx tasks).2).
Proof.
  intros Hseq. split.
  - intros k. destruct k as [|i].
    + apply _find_task_None, Forall_lookup. intros j x Hx.
      rewrite (sequential_lookup _ _ _ Hseq Hx). lia.
    + destruct (tasks !! i) as [t|] eqn:Hi.
      * apply (_find_task_first _ _ i); [done| |].
        -- by rewrite (sequential_lookup _ _ _ Hseq Hi).
        -- intros j' x Hlt Hx. rewrite (sequential_lookup _ _ _ Hseq Hx). lia.
      * apply _find_task_None, Forall_lookup. intros j x Hx.
        rewrite (sequential_lookup _ _ _ Hseq Hx).
        apply lookup_ge_None in Hi. apply lookup_lt_Some in Hx. lia.
  - intros Hnot.
    destruct (task_execute_cases now user_input ctx tasks)
      as [->|[(g & _ & _ & ->)
             |[(g & k & t & _ & _ & Hfind & _ & _ & ->)
              |(g & k & t & _ & _ & _ & Hr & _)]]].
    + done.
    + unfold TaskPlugin.sequential in *. rewrite fmap_app, length_app, Hseq.
      cbn. rewrite Nat.add_1_r, seq_S. done.
    + destruct (_find_task_Some _ _ _ Hfind) as (pre & post & -> & Hpre & Hid).
      rewrite update_found_at by done. unfold TaskPlugin.sequential in *.
      rewrite !fmap_app, !fmap_cons, !length_app in Hseq |- *. exact Hseq.
    + by apply Hnot in Hr.
Qed.

(** X18: ids are reused. In a list whose ids are the positions 1..n,
    removing a task other than the last and then adding one gives the new
    task the id n, which the old last task still has: the list now holds
    two tasks with id n, and [_find_task n], hence "complete task n" and
    "remove task n", reaches the old one. *)
Theorem task_id_is_reused_after_removal
    now remove_input group1 i add_input group2 tasks :
  TaskPlugin.sequential tasks ->
  1 <= i < length tasks ->
  TaskPlugin.search_remove_task py remove_input = Some group1 ->
  TaskPlugin.int py group1 = Ok i ->
  TaskPlugin.search_add_task py add_input = Some group2 ->
  let n := length tasks in
  let tasks1 := (TaskPlugin._remove_task py remove_input tasks).2 in
  let tasks2 := (TaskPlugin._add_task py now add_input tasks1).2 in
  exists old new,
    tasks !! (n - 1) = Some old /\
    tasks2 !! (n - 2) = Some old /\
    tasks2 !! (n - 1) = Some new /\
    TaskPlugin.id old = n /\
    TaskPlugin.id new = n /\
    TaskPlugin.description new = TaskPlugin.strip py group2 /\
    TaskPlugin._find_task n tasks2 = Some old /\
    ~ NoDup (TaskPlugin.id <$> tasks2).
Proof.
  intros Hseq [Hi1 Hin] Hsearch Hint Hadd n tasks1 tasks2.
  destruct (lookup_lt_is_Some_2 tasks (i - 1)) as [t Ht]; [lia|].
  destruct (lookup_lt_is_Some_2 tasks (n - 1)) as [old Hold]; [unfold n; lia|].
  assert (Hidt : TaskPlugin.id t = i).
  { rewrite (sequential_lookup _ _ _ Hseq Ht). lia. }
  assert (Hidold : TaskPlugin.id old = n).
  { rewrite (sequential_lookup _ _ _ Hseq Hold). unfold n. lia. }
  assert (Hfind : TaskPlugin._find_task i tasks = Some t).
  { apply (_find_task_first _ _ (i - 1)); [done|done|].
    intros j' x Hlt Hx. rewrite (sequential_lookup _ _ _ Hseq Hx). lia. }
  assert (Htasks1 : tasks1 = delete (i - 1) tasks).
  { unfold tasks1. rewrite _remove_task_eq, Hsearch, Hint, Hfind. cbn [snd].
    rewrite delete_take_drop. replace (Datatypes.S (i - 1)) with i by lia.
    rewrite <- (take_drop_middle tasks (i - 1) t Ht) at 1.
    replace (Datatypes.S (i - 1)) with i by lia.
    apply list_remove_at. apply Forall_lookup. intros j x Hx.
    assert (j < i - 1).
    { apply lookup_lt_Some in Hx. rewrite length_take in Hx. lia. }
    rewrite lookup_take_lt in Hx by done.
    rewrite (sequential_lookup _ _ _ Hseq Hx), Hidt. lia. }
  assert (Hlen1 : length tasks1 = n - 1).
  { rewrite Htasks1, length_delete by (eexists; exact Ht).
    unfold n. lia. }
  set (new := {| TaskPlugin.id := length tasks1 + 1;
                 TaskPlugin.description := TaskPlugin.strip py group2;
                 TaskPlugin.created := now;
                 TaskPlugin.completed := false;
                 TaskPlugin.completed_at := None |}).
  assert (Htasks2 : tasks2 = tasks1 ++ [new]).
  { unfold tasks2. rewrite _add_task_eq, Hadd. reflexivity. }
  assert (Hold1 : tasks1 !! (n - 2) = Some old).
  { rewrite Htasks1, list_lookup_delete_ge by lia.
    replace (Datatypes.S (n - 2)) with (n - 1) by (unfold n; lia). done. }
  assert (Hold2 : tasks2 !! (n - 2) = Some old).
  { rewrite Htasks2, lookup_app_l by lia. done. }
  assert (Hnew2 : tasks2 !! (n - 1) = Some new).
  { rewrite Htasks2, lookup_app_r by lia.
    replace (n - 1 - length tasks1) with 0 by lia. done. }
  assert (Hidnew : TaskPlugin.id new = n).
  { cbn. unfold n in *. lia. }
  exists old, new. split_and!; try done.
  - apply (_find_task_first _ _ (n - 2)); [done|done|].
    intros j' x Hlt Hx. rewrite Htasks2, lookup_app_l in Hx by lia.
    rewrite Htasks1, list_lookup_delete in Hx.
    destruct (decide (j' < i - 1)).
    + rewrite (sequential_lookup _ _ _ Hseq Hx). lia.
    + rewrite (sequential_lookup _ _ _ Hseq Hx). lia.
  - intros Hnd.
    assert (n - 2 = n - 1); [|unfold n in *; lia].
    eapply (NoDup_lookup _ _ _ n Hnd).
    + by rewrite list_lookup_fmap, Hold2, <- Hidold.
    + by rewrite list_lookup_fmap, Hnew2, <- Hidnew.
Qed.

Lemma string_app_assoc (a b c : string) : (a +:+ b) +:+ c = a +:+ b +:+ c.
Proof.
  induction a as [|x a IH]; [done|].
  change (String x ((a +:+ b) +:+ c) = String x (a +:+ b +:+ c)).
  by f_equal.
Qed.

Lemma occurs_in_app_l x p s :
  TaskPlugin.occurs_in x s -> TaskPlugin.occurs_in x (p +:+ s).
Proof.
  intros (a & b & ->). exists (p +:+ a), b. by rewrite string_app_assoc.
Qed.

Lemma occurs_in_app_r x s q :
  TaskPlugin.occurs_in x s -> TaskPlugin.occurs_in x (s +:+ q).
Proof.
  intros (a & b & ->). exists a, (b +:+ q). by rewrite !string_app_assoc.
Qed.

Lemma occurs_in_task_lines mark t tasks :
  t ∈ tasks ->
  TaskPlugin.occurs_in (TaskPlugin.task_line mark t)
    (TaskPlugin.task_lines mark tasks).
Proof.
  induction tasks as [|x tasks IH]; [by intros H%elem_of_nil|].
  intros [->|Hin]%elem_of_cons; cbn.
  - exists "", (TaskPlugin.task_lines mark tasks). done.
  - by apply occurs_in_app_l, IH.
Qed.

(** X19: [_list_tasks] never changes the list; for an empty list it says
    that no tasks were found, and otherwise its answer holds the line of
    every task: two spaces (and a check mark for a completed one), the id,
    a dot, the description, a newline. *)
Theorem task_list_shows_every_task tasks :
  (TaskPlugin._list_tasks tasks).2 = tasks /\
  (tasks = [] ->
   (TaskPlugin._list_tasks tasks).1 =
     Ok "📝 No tasks found. Add a task with 'add task [description]'") /\
  (forall t, t ∈ tasks ->
     exists response,
       (TaskPlugin._list_tasks tasks).1 = Ok response /\
       TaskPlugin.occurs_in
         (TaskPlugin.task_line
            (if TaskPlugin.completed t then "  ✓ " else "  ") t)
         response).
Proof.
  split; [apply _list_tasks_unchanged|]. split; [by intros ->|].
  intros t Hin. unfold TaskPlugin._list_tasks, bind, get. cbn [fst snd].
  destruct tasks as [|x tasks]; [by apply elem_of_nil in Hin|].
  set (all := x :: tasks) in *.
  set (header := "📝 **Your Tasks:**" +:+ TaskPlugin.nl +:+ TaskPlugin.nl).
  set (active := filter (fun t => TaskPlugin.completed t = false) all).
  set (done_ := filter (fun t => TaskPlugin.completed t = true) all).
  cbn [ret fst]. eexists. split; [reflexivity|].
  destruct (TaskPlugin.completed t) eqn:Ht.
  - assert (Hd : t ∈ done_) by (by apply list_elem_of_filter).
    destruct done_ as [|d ds] eqn:Hds; [by apply elem_of_nil in Hd|].
    apply occurs_in_app_l, occurs_in_app_l. by apply occurs_in_task_lines.
  - assert (Ha : t ∈ active) by (by apply list_elem_of_filter).
    destruct active as [|a as_] eqn:Has; [by apply elem_of_nil in Ha|].
    assert (Hocc : TaskPlugin.occurs_in (TaskPlugin.task_line "  " t)
              (header +:+ ("**Active Tasks:**" +:+ TaskPlugin.nl) +:+
               TaskPlugin.task_lines "  " (a :: as_) +:+ TaskPlugin.nl)).
    { apply occurs_in_app_l, occurs_in_app_l, occurs_in_app_r.
      by apply occurs_in_task_lines. }
    destruct done_; [exact Hocc|]. by apply occurs_in_app_r.
Qed.

End TaskFacts.

(** ** The further properties on examples *)

(** The assertions of [tests/test_task_plugin.py], on the model. *)
Lemma task_plugin_tests :
  let execute c tasks :=
    TaskPlugin.execute AsciiPy.py "2024-05-01T09:00:00" c ∅ tasks in
  (* test_add_task *)
  (execute "add task buy groceries" []).1 = Ok "✅ Added task: buy groceries" /\
  length (execute "add task buy groceries" []).2 = 1 /\
  (* test_list_empty_tasks *)
  (execute "list tasks" []).1 =
    Ok "📝 No tasks found. Add a task with 'add task [description]'" /\
  (* test_list_tasks *)
  (exists response,
     (execute "list tasks"
        (AsciiPy.run ["add task buy groceries"; "add task walk the dog"] [])).1 =
       Ok response /\
     TaskPlugin.contains "buy groceries" response = true /\
     TaskPlugin.contains "walk the dog" response = true) /\
  (* test_complete_task *)
  (execute "complete task 1" (AsciiPy.run ["add task buy groceries"] [])).1 =
    Ok "✅ Completed task: buy groceries" /\
  TaskPlugin.completed <$>
    (execute "complete task 1" (AsciiPy.run ["add task buy groceries"] [])).2 =
    [true] /\
  (* test_can_handle *)
  TaskPlugin.can_handle AsciiPy.py "add task something" = true /\
  TaskPlugin.can_handle AsciiPy.py "I need to remember to do something" = true /\
  TaskPlugin.can_handle AsciiPy.py "what's the weather like?" = false.
Proof.
  cbv zeta. split_and!; try (vm_compute; reflexivity).
  eexists. split_and!; vm_compute; reflexivity.
Qed.

Lemma status_after_successful_call_witness :
  exists n,
    0 < n /\
    last_interaction
      (get_status (process_input_body "remind me to call" None
                     (example_world (two_claimants true))).2) =
      Some (example_clock n).
Proof.
  destruct (status_after_successful_call
              "remind me to call" None (example_world (two_claimants true))
              "A: remind me to call"
              (process_input_body "remind me to call" None
                 (example_world (two_claimants true))).2)
    as (n & Hlater & _ & _ & _ & Hlast).
  - reflexivity.
  - reflexivity.
  - exists n. split; [exact Hlater | exact Hlast].
Defined.

Lemma timestamps_stay_in_order_witness :
  stamps_in_order
    (process_all sixty_requests (example_world (two_claimants true))).2.
Proof.
  apply (timestamps_stay_in_order sixty_requests
           (example_world (two_claimants true))).
  exists []. split_and!; [reflexivity | constructor | constructor].
Defined.

Lemma loaded_file_is_found_by_its_stem_witness :
  exists i,
    (get_plugin "helpers" (_load_plugin_from_file helpers_py unloaded_world).2).1 =
      Ok {| cls := keyword_class "beta" "beta: "; self := i |}.
Proof.
  destruct (loaded_file_is_found_by_its_stem helpers_py
              [ ("BasePlugin", BasePluginItself);
                ("Path", OtherClass);
                ("AlphaPlugin",
                 PluginSubclass "src.plugins.helpers" (keyword_class "alpha" "alpha: "));
                ("BetaPlugin",
                 PluginSubclass "src.plugins.helpers" (keyword_class "beta" "beta: ")) ]
              [keyword_class "alpha" "alpha: "] (keyword_class "beta" "beta: ")
              unloaded_world)
    as (_ & i & _ & Hget).
  - reflexivity.
  - reflexivity.
  - repeat constructor; eexists; reflexivity.
  - exists i. exact Hget.
Defined.

Lemma module_without_own_plugin_registers_nothing_witness :
  _load_plugin_from_file shared_py unloaded_world = (Ok tt, unloaded_world).
Proof.
  apply (module_without_own_plugin_registers_nothing shared_py
           [ ("BasePlugin", BasePluginItself);
             ("Path", OtherClass);
             ("AlphaPlugin",
              PluginSubclass "src.plugins.helpers" (keyword_class "alpha" "alpha: ")) ]).
  - reflexivity.
  - reflexivity.
Defined.



Lemma task_execute_ignores_unclaimed_input_witness :
  TaskPlugin.execute AsciiPy.py "2024-05-01T09:00:00" "add milk to the list" ∅
    (AsciiPy.run ["add task buy groceries"] []) =
  (Ok TaskPlugin._general_task_help, AsciiPy.run ["add task buy groceries"] []).
Proof.
  apply (task_execute_ignores_unclaimed_input AsciiPy.py). vm_compute. reflexivity.
Defined.

Lemma task_removal_deletes_the_found_task_witness :
  (TaskPlugin._remove_task AsciiPy.py "please remove task 2"
     (AsciiPy.run ["add task a"; "add task b"; "add task c"] [])).1 =
    Ok "🗑️ Removed task: b" /\
  TaskPlugin._find_task 2
    (TaskPlugin._remove_task AsciiPy.py "please remove task 2"
       (AsciiPy.run ["add task a"; "add task b"; "add task c"] [])).2 = None.
Proof.
  destruct (task_removal_deletes_the_found_task AsciiPy.py
              "please remove task 2" "2" 2
              {| TaskPlugin.id := 2; TaskPlugin.description := "b";
                 TaskPlugin.created := "2024-05-01T09:00:00";
                 TaskPlugin.completed := false;
                 TaskPlugin.completed_at := None |}
              (AsciiPy.run ["add task a"; "add task b"; "add task c"] []))
    as (Hanswer & _ & _ & _ & Hgone).
  - vm_compute. reflexivity.
  - reflexivity.
  - vm_compute. reflexivity.
  - split; [exact Hanswer|]. apply Hgone.
    change (NoDup [1; 2; 3]). apply (bool_decide_unpack _). vm_compute. exact I.
Defined.

Lemma task_ids_are_positions_until_removal_witness :
  TaskPlugin._find_task 2 (AsciiPy.run ["add task a"; "add task b"] []) =
  AsciiPy.run ["add task a"; "add task b"] [] !! 1.
Proof.
  destruct (task_ids_are_positions_until_removal AsciiPy.py
              "2024-05-01T09:00:00" "list tasks" ∅
              (AsciiPy.run ["add task a"; "add task b"] []))
    as [Hfind _].
  - vm_compute. reflexivity.
  - exact (Hfind 2).
Defined.

Lemma task_id_is_reused_after_removal_witness :
  ~ NoDup (TaskPlugin.id <$>
             AsciiPy.run ["add task a"; "add task b"; "remove task 1"; "add task c"] []).
Proof.
  destruct (task_id_is_reused_after_removal AsciiPy.py
              "2024-05-01T09:00:00" "remove task 1" "1" 1 "add task c" "c"
              (AsciiPy.run ["add task a"; "add task b"] []))
    as (old & new & _ & _ & _ & _ & _ & _ & _ & Hdup).
  - vm_compute. reflexivity.
  - vm_compute. lia.
  - vm_compute. reflexivity.
  - reflexivity.
  - vm_compute. reflexivity.
  - exact Hdup.
Defined.
